(** * QuantumLink backend: the HTTP gateway of [api/index.js]

  A shallow embedding of the Express application of [api/index.js]: its
  four route registrations, the handlers behind them and the connection
  pool they query, followed by the properties of the request/response
  contract. *)

From Stdlib Require Import String Ascii List Bool ZArith Lia.
From Stdlib Require Import Floats.SpecFloat.
Import ListNotations.
Open Scope string_scope.
Open Scope list_scope.
Set Warnings "-register-all".

(** ** JavaScript values *)

Module Js.

(** The values the handlers see: parsed JSON (request bodies), the cells
    of a result row as the driver delivers them, and the objects handed to
    [res.json].  A number is an IEEE double; a [Date] is its epoch time in
    milliseconds.  An object is its own properties in insertion order. *)
Inductive JsValue : Type :=
| JUndefined
| JNull
| JBool (b : bool)
| JNumber (x : spec_float)
| JString (s : string)
| JDate (ms : Z)
| JArray (xs : list JsValue)
| JObject (fields : list (string * JsValue)).

Inductive JsError : Type :=
| TypeError (msg : string)
| DatabaseError (msg : string).

(** ToBoolean: [undefined], [null], [false], [+0], [-0], [NaN] and the
    empty string are falsy, every other value is truthy. *)
Definition truthy (v : JsValue) : bool :=
  match v with
  | JUndefined | JNull => false
  | JBool b => b
  | JNumber (S754_zero _) | JNumber S754_nan => false
  | JNumber _ => true
  | JString EmptyString => false
  | JString _ => true
  | JDate _ | JArray _ | JObject _ => true
  end.

(** The falsy values, spelled out. *)
Inductive falsy : JsValue -> Prop :=
| falsy_undefined : falsy JUndefined
| falsy_null : falsy JNull
| falsy_false : falsy (JBool false)
| falsy_zero : forall sign, falsy (JNumber (S754_zero sign))
| falsy_nan : falsy (JNumber S754_nan)
| falsy_empty : falsy (JString EmptyString).

Fixpoint assoc {A : Type} (k : string) (l : list (string * A)) : option A :=
  match l with
  | [] => None
  | (k', v) :: l' => if String.eqb k k' then Some v else assoc k l'
  end.

(** [v.k] for a value that is neither [undefined] nor [null], and a name
    [k] that no built-in prototype defines (the handlers read
    [externalAccountId], [email], [now] and route parameters): an own
    property of an object, [undefined] otherwise. *)
Definition get (v : JsValue) (k : string) : JsValue :=
  match v with
  | JObject fields =>
      match assoc k fields with
      | Some x => x
      | None => JUndefined
      end
  | _ => JUndefined
  end.

(** Reading a property of [undefined] or [null], or destructuring them,
    throws. *)
Definition nullish (v : JsValue) : bool :=
  match v with
  | JUndefined | JNull => true
  | _ => false
  end.

(** *** [decodeURIComponent]

    A string holds text as its UTF-8 octets.  An escape [%XY] stands for
    the octet with hexadecimal digits [X] and [Y]; the escaped octets must
    spell well-formed UTF-8, every octet of a character escaped. *)
Definition hex_digit (c : ascii) : option nat :=
  let n := nat_of_ascii c in
  if (48 <=? n)%nat && (n <=? 57)%nat then Some (n - 48)%nat
  else if (65 <=? n)%nat && (n <=? 70)%nat then Some (n - 55)%nat
  else if (97 <=? n)%nat && (n <=? 102)%nat then Some (n - 87)%nat
  else None.

Inductive Token : Type :=
| Raw (c : ascii)
| Escaped (octet : nat).

(** Cut a string into plain characters and escapes; a percent sign that is
    not followed by two hexadecimal digits is an error. *)
Fixpoint tokens (s : string) : option (list Token) :=
  match s with
  | EmptyString => Some []
  | String c rest =>
      if Ascii.eqb c "%" then
        match rest with
        | String h (String l rest') =>
            match hex_digit h, hex_digit l, tokens rest' with
            | Some a, Some b, Some ts => Some (Escaped (16 * a + b) :: ts)
            | _, _, _ => None
            end
        | _ => None
        end
      else
        match tokens rest with
        | Some ts => Some (Raw c :: ts)
        | None => None
        end
  end.

Definition between (lo hi n : nat) : bool := (lo <=? n)%nat && (n <=? hi)%nat.

(** The second octet of a three-octet character: no overlong form after
    E0, no surrogate after ED. *)
Definition second_of_three (b1 b2 : nat) : bool :=
  if (b1 =? 224)%nat then between 160 191 b2
  else if (b1 =? 237)%nat then between 128 159 b2
  else between 128 191 b2.

(** The second octet of a four-octet character: no overlong form after
    F0, nothing beyond U+10FFFF after F4. *)
Definition second_of_four (b1 b2 : nat) : bool :=
  if (b1 =? 240)%nat then between 144 191 b2
  else if (b1 =? 244)%nat then between 128 143 b2
  else between 128 191 b2.

(** Put the characters back together; an escaped octet above 127 must
    start a well-formed UTF-8 character whose other octets are the escapes
    that follow. *)
Fixpoint assemble (ts : list Token) : option string :=
  match ts with
  | [] => Some EmptyString
  | Raw c :: ts' => option_map (String c) (assemble ts')
  | Escaped b1 :: ts' =>
      if (b1 <? 128)%nat then
        option_map (String (ascii_of_nat b1)) (assemble ts')
      else if between 194 223 b1 then
        match ts' with
        | Escaped b2 :: ts2 =>
            if between 128 191 b2 then
              option_map
                (fun s => String (ascii_of_nat b1) (String (ascii_of_nat b2) s))
                (assemble ts2)
            else None
        | _ => None
        end
      else if between 224 239 b1 then
        match ts' with
        | Escaped b2 :: Escaped b3 :: ts3 =>
            if second_of_three b1 b2 && between 128 191 b3 then
              option_map
                (fun s => String (ascii_of_nat b1) (String (ascii_of_nat b2)
                            (String (ascii_of_nat b3) s)))
                (assemble ts3)
            else None
        | _ => None
        end
      else if between 240 244 b1 then
        match ts' with
        | Escaped b2 :: Escaped b3 :: Escaped b4 :: ts4 =>
            if second_of_four b1 b2 && between 128 191 b3
               && between 128 191 b4 then
              option_map
                (fun s => String (ascii_of_nat b1) (String (ascii_of_nat b2)
                            (String (ascii_of_nat b3)
                               (String (ascii_of_nat b4) s))))
                (assemble ts4)
            else None
        | _ => None
        end
      else None
  end.

(** [decodeURIComponent(s)]: the decoded string, or [None] where it throws
    a [URIError]. *)
Definition decodeURIComponent (s : string) : option string :=
  match tokens s with
  | Some ts => assemble ts
  | None => None
  end.

End Js.
Export Js.

(** ** The connection pool and the datastore behind it *)

Module Pg.

(** A result row: column name and cell, in column order. *)
Definition Row : Type := list (string * JsValue).

Record QueryResult : Type := { rows : list Row }.

(** The SQL texts of [api/index.js]. *)
Definition health_query : string := "SELECT NOW()".
Definition warranty_query : string :=
  "SELECT * FROM external_warranties WHERE serial_number = $1".
Definition verify_query : string :=
  "SELECT customer_external_id, full_name, email, account_status FROM external_customers WHERE customer_external_id = $1 AND email = $2".
Definition quote_query : string :=
  "SELECT part_id, part_name, base_price, stock_quantity, compatibility_notes FROM parts_pricing WHERE part_id = $1".

Definition customer_columns : list string :=
  ["customer_external_id"; "full_name"; "email"; "account_status"].
Definition quote_columns : list string :=
  ["part_id"; "part_name"; "base_price"; "stock_quantity";
   "compatibility_notes"].

(** The pool of [new Pool({...})] together with the database it is
    connected to.  [fault] says which statements raise (connection refused,
    a rejected parameter, a missing table) and with what error; [clock] is
    the database clock as the pool meets it: [clock n] is what it reads when
    the [n]-th statement from now runs, and nothing is assumed of how it
    moves; the three tables hold their rows in the order a scan returns
    them.  [pg_text] is the driver's text form of a parameter
    that is neither a string nor null (a number, a boolean, an array, an
    object); the driver is not part of the repository, so it is left
    open. *)
Record Pool : Type := {
  pg_text : JsValue -> string;
  fault : string -> list JsValue -> option JsError;
  clock : nat -> Z;
  external_warranties : list Row;
  external_customers : list Row;
  parts_pricing : list Row
}.

(** What the database clock reads for the statement that runs now. *)
Definition now (p : Pool) : Z := clock p 0.

(** The pool once a statement has run: the clock has moved to its next
    reading, the data is as it was. *)
Definition elapse (p : Pool) : Pool :=
  {| pg_text := pg_text p;
     fault := fault p;
     clock := fun n => clock p (S n);
     external_warranties := external_warranties p;
     external_customers := external_customers p;
     parts_pricing := parts_pricing p |}.

(** Two pools with the same driver, the same faults and the same tables:
    they differ at most in their clocks. *)
Definition same_data (p p' : Pool) : Prop :=
  pg_text p = pg_text p'
  /\ fault p = fault p'
  /\ external_warranties p = external_warranties p'
  /\ external_customers p = external_customers p'
  /\ parts_pricing p = parts_pricing p'.

(** The text the driver sends for a parameter: a string goes as it is. *)
Definition param_text (p : Pool) (v : JsValue) : string :=
  match v with
  | JString s => s
  | _ => pg_text p v
  end.

(** A bound parameter as the database receives it: NULL for [undefined]
    and [null], text otherwise. *)
Definition bound (p : Pool) (v : JsValue) : option string :=
  match v with
  | JUndefined | JNull => None
  | _ => Some (param_text p v)
  end.

Definition cell (c : string) (r : Row) : JsValue :=
  match assoc c r with
  | Some v => v
  | None => JNull
  end.

(** [column = $n] on a text column: exact equality of the stored string
    and the whole bound text; NULL on either side equals nothing. *)
Definition sql_eq (stored : JsValue) (param : option string) : bool :=
  match stored, param with
  | JString s, Some t => String.eqb s t
  | _, _ => false
  end.

Definition project (columns : list string) (r : Row) : Row :=
  map (fun c => (c, cell c r)) columns.

(** What each of the four statements selects.  A statement with the wrong
    number of parameters, or any other text, is rejected. *)
Definition select (p : Pool) (text : string) (values : list JsValue)
  : option (list Row) :=
  if String.eqb text health_query then
    match values with
    | [] => Some [[("now", JDate (now p))]]
    | _ => None
    end
  else if String.eqb text warranty_query then
    match values with
    | [v1] =>
        Some (filter (fun r => sql_eq (cell "serial_number" r) (bound p v1))
                     (external_warranties p))
    | _ => None
    end
  else if String.eqb text verify_query then
    match values with
    | [v1; v2] =>
        Some (map (project customer_columns)
                (filter (fun r =>
                           sql_eq (cell "customer_external_id" r) (bound p v1)
                           && sql_eq (cell "email" r) (bound p v2))
                        (external_customers p)))
    | _ => None
    end
  else if String.eqb text quote_query then
    match values with
    | [v1] =>
        Some (map (project quote_columns)
                (filter (fun r => sql_eq (cell "part_id" r) (bound p v1))
                        (parts_pricing p)))
    | _ => None
    end
  else None.

(** [pool.query(text, values)]: the rows, or the error it rejects with. *)
Definition query (p : Pool) (text : string) (values : list JsValue)
  : JsError + QueryResult :=
  match fault p text values with
  | Some e => inl e
  | None =>
      match select p text values with
      | Some rs => inr {| rows := rs |}
      | None => inl (DatabaseError "statement rejected")
      end
  end.

(** The statement raises instead of returning rows. *)
Definition raises (p : Pool) (text : string) (values : list JsValue) : Prop :=
  exists e, query p text values = inl e.

(** [r] is the first element of [l] with property [P]. *)
Definition first_such {A : Type} (P : A -> Prop) (l : list A) (r : A) : Prop :=
  exists before after,
    l = before ++ r :: after /\ P r /\ forall x, In x before -> ~ P x.

End Pg.
Export Pg.

(** ** Express: requests, responses, routing *)

Module Express.

Inductive Method : Type := GET | HEAD | POST | PUT | PATCH | DELETE | OPTIONS.

Definition Method_eqb (a b : Method) : bool :=
  match a, b with
  | GET, GET | HEAD, HEAD | POST, POST | PUT, PUT | PATCH, PATCH
  | DELETE, DELETE | OPTIONS, OPTIONS => true
  | _, _ => false
  end.

(** What a handler reads of [req]: the route parameters and the body that
    [express.json()] parsed. *)
Record Req : Type := {
  params : list (string * string);
  body : JsValue
}.

(** [req.params.name]: a string, [undefined] when the route has no such
    parameter. *)
Definition param (req : Req) (name : string) : JsValue :=
  match assoc name (params req) with
  | Some s => JString s
  | None => JUndefined
  end.

(** What a handler writes of [res]: the status code, 200 until [res.status]
    changes it, and the JSON body once [res.json] has sent it. *)
Record Res : Type := {
  statusCode : nat;
  sent : option JsValue
}.

Definition fresh_res : Res := {| statusCode := 200; sent := None |}.

(** A segment of a route path: literal text, or a named parameter. *)
Inductive Segment : Type :=
| Lit (s : string)
| Param (name : string).

(** Cut a path at every slash: ["/api/health"] gives the empty segment,
    then ["api"] and ["health"]. *)
Fixpoint split_path (s : string) : list string :=
  match s with
  | EmptyString => [EmptyString]
  | String c s' =>
      if Ascii.eqb c "/" then EmptyString :: split_path s'
      else
        match split_path s' with
        | seg :: rest => String c seg :: rest
        | [] => [String c EmptyString]
        end
  end.

Definition segment_of (s : string) : Segment :=
  match s with
  | String ":" name => Param name
  | _ => Lit s
  end.

(** The segments of a route path, without the empty one before the leading
    slash. *)
Definition pattern_of (path : string) : list Segment :=
  map segment_of (tl (split_path path)).

Definition lower (c : ascii) : ascii :=
  let n := nat_of_ascii c in
  if (65 <=? n)%nat && (n <=? 90)%nat then ascii_of_nat (n + 32) else c.

Fixpoint lowercase (s : string) : string :=
  match s with
  | EmptyString => EmptyString
  | String c s' => String (lower c) (lowercase s')
  end.

(** Match the segments of a request path against a route path, as the
    regular expression of the route does.  Routing is case-insensitive and
    not strict: literal text matches in any case, and one trailing slash is
    allowed.  A parameter captures one whole non-empty segment, still as
    it stands in the path. *)
Fixpoint match_segments (pat : list Segment) (segs : list string)
  : option (list (string * string)) :=
  match pat, segs with
  | [], [] => Some []
  | [], [EmptyString] => Some []
  | Lit l :: pat', s :: segs' =>
      if String.eqb (lowercase l) (lowercase s) then match_segments pat' segs'
      else None
  | Param name :: pat', s :: segs' =>
      match s with
      | EmptyString => None
      | _ =>
          match match_segments pat' segs' with
          | Some ps => Some ((name, s) :: ps)
          | None => None
          end
      end
  | _, _ => None
  end.

(** The captured parameters are decoded one by one with
    [decodeURIComponent]; the first one that does not decode fails the
    match. *)
Fixpoint decode_params (captured : list (string * string))
  : option (list (string * string)) :=
  match captured with
  | [] => Some []
  | (name, value) :: rest =>
      match decodeURIComponent value, decode_params rest with
      | Some v, Some ps => Some ((name, v) :: ps)
      | _, _ => None
      end
  end.

(** What matching a route path against the path of a request gives: no
    match, a match whose parameter is a malformed escape, or a match with
    its decoded parameters. *)
Inductive PathMatch : Type :=
| NoMatch
| Malformed
| Matched (ps : list (string * string)).

(** [request_path] is the path of the request URL, without the query
    string. *)
Definition match_path (route_path request_path : string) : PathMatch :=
  match split_path request_path with
  | EmptyString :: segs =>
      match match_segments (pattern_of route_path) segs with
      | Some captured =>
          match decode_params captured with
          | Some ps => Matched ps
          | None => Malformed
          end
      | None => NoMatch
      end
  | _ => NoMatch
  end.

(** A route registered with [app.get] also answers HEAD requests. *)
Definition handles_method (registered requested : Method) : bool :=
  Method_eqb registered requested
  || (Method_eqb registered GET && Method_eqb requested HEAD).

(** A string without a slash. *)
Fixpoint slashless (s : string) : bool :=
  match s with
  | EmptyString => true
  | String c s' => negb (Ascii.eqb c "/") && slashless s'
  end.

(** A visible ASCII character other than the slash, the percent sign, the
    question mark and the hash: one that stands for itself in the path of
    a URL. *)
Definition plain_char (c : ascii) : bool :=
  let n := nat_of_ascii c in
  (33 <=? n)%nat && (n <=? 126)%nat
  && negb (Ascii.eqb c "/") && negb (Ascii.eqb c "%")
  && negb (Ascii.eqb c "?") && negb (Ascii.eqb c "#").

Fixpoint plain (s : string) : bool :=
  match s with
  | EmptyString => true
  | String c s' => plain_char c && plain s'
  end.

End Express.
Export Express.

(** ** The application *)

Module Api.

(** The part of the process a handler acts on: the pool, the statements
    sent through it so far (oldest first), the lines written with
    [console.error], and the response of the request being served. *)
Record World : Type := {
  pool : Pool;
  issued : list (string * list JsValue);
  console : list (string * JsError);
  res : Res
}.

(** How a block of statements ends: normally, or by throwing. *)
Inductive Completion (A : Type) : Type :=
| Normal (a : A)
| Throw (e : JsError).
Arguments Normal {A} a.
Arguments Throw {A} e.

Definition M (A : Type) : Type := World -> Completion A * World.

Definition ret {A : Type} (a : A) : M A := fun w => (Normal a, w).

Definition bind {A B : Type} (m : M A) (k : A -> M B) : M B :=
  fun w =>
    match m w with
    | (Normal a, w') => k a w'
    | (Throw e, w') => (Throw e, w')
    end.

Definition throw {A : Type} (e : JsError) : M A := fun w => (Throw e, w).

Definition try_catch (block : M unit) (handler : JsError -> M unit) : M unit :=
  fun w =>
    match block w with
    | (Normal a, w') => (Normal a, w')
    | (Throw e, w') => handler e w'
    end.

Declare Scope js_scope.
Delimit Scope js_scope with js.
Notation "x <- m ;; k" := (bind m (fun x => k))
  (at level 100, m at next level, right associativity) : js_scope.
Notation "m ;; k" := (bind m (fun _ => k))
  (at level 100, right associativity) : js_scope.
Open Scope js_scope.

(** [await pool.query(text, values)]: the statement goes out, and its
    result comes back or its error is thrown. *)
Definition pool_query (text : string) (values : list JsValue) : M QueryResult :=
  fun w =>
    let w' := {| pool := elapse (pool w);
                 issued := issued w ++ [(text, values)];
                 console := console w;
                 res := res w |} in
    match Pg.query (pool w) text values with
    | inr result => (Normal result, w')
    | inl e => (Throw e, w')
    end.

Definition console_error (label : string) (err : JsError) : M unit :=
  fun w =>
    (Normal tt, {| pool := pool w;
                   issued := issued w;
                   console := console w ++ [(label, err)];
                   res := res w |}).

Definition res_status (code : nat) : M unit :=
  fun w =>
    (Normal tt, {| pool := pool w;
                   issued := issued w;
                   console := console w;
                   res := {| statusCode := code; sent := sent (res w) |} |}).

Definition res_json (payload : JsValue) : M unit :=
  fun w =>
    (Normal tt, {| pool := pool w;
                   issued := issued w;
                   console := console w;
                   res := {| statusCode := statusCode (res w);
                             sent := Some payload |} |}).

(** [rows[i]]: the row as an object, [undefined] past the end. *)
Definition index (rs : list Row) (i : nat) : JsValue :=
  match nth_error rs i with
  | Some r => JObject r
  | None => JUndefined
  end.

(** [v.k], which throws when [v] is [undefined] or [null]. *)
Definition member (v : JsValue) (k : string) : M JsValue :=
  if nullish v then throw (TypeError "Cannot read properties of undefined")
  else ret (get v k).

(** [const { ... } = v], which throws when [v] is [undefined] or [null]. *)
Definition destructure (v : JsValue) : M unit :=
  if nullish v then throw (TypeError "Cannot destructure") else ret tt.

Definition error_body (message : string) : JsValue :=
  JObject [("error", JString message)].

(** [app.get('/api/health', ...)] *)
Definition health (req : Req) : M unit :=
  try_catch (
    result <- pool_query health_query [] ;;
    db_time <- member (index (rows result) 0) "now" ;;
    res_json (JObject
      [("status", JString "QuantumLink API is connected to Neon Cloud!");
       ("db_time", db_time)])
  ) (fun err =>
    console_error "Database connection failed:" err ;;
    res_status 500 ;;
    res_json (error_body "Failed to connect to Neon.")).

(** [app.get('/api/warranty/:serialNumber', ...)] *)
Definition warranty (req : Req) : M unit :=
  try_catch (
    let serialNumber := param req "serialNumber" in
    let query := warranty_query in
    result <- pool_query query [serialNumber] ;;
    if Nat.eqb (length (rows result)) 0 then
      res_status 404 ;;
      res_json (error_body "Warranty not found for this serial number.")
    else
      res_json (index (rows result) 0)
  ) (fun err =>
    console_error "Database error:" err ;;
    res_status 500 ;;
    res_json (error_body "Internal server error while fetching warranty.")).

(** [app.post('/api/verify-user', ...)] *)
Definition verify_user (req : Req) : M unit :=
  try_catch (
    destructure (body req) ;;
    let externalAccountId := get (body req) "externalAccountId" in
    let email := get (body req) "email" in
    if negb (truthy externalAccountId) || negb (truthy email) then
      res_status 400 ;;
      res_json
        (error_body "Missing required fields: externalAccountId or email.")
    else
      let query := verify_query in
      result <- pool_query query [externalAccountId; email] ;;
      if Nat.eqb (length (rows result)) 0 then
        res_status 401 ;;
        res_json (JObject
          [("verified", JBool false);
           ("message",
            JString "Identity verification failed. No match found in external system.")])
      else
        res_json (JObject
          [("verified", JBool true);
           ("customer", index (rows result) 0)])
  ) (fun err =>
    console_error "Database error during verification:" err ;;
    res_status 500 ;;
    res_json (error_body "Internal server error during user verification.")).

(** [app.get('/api/quote/:partId', ...)] *)
Definition quote (req : Req) : M unit :=
  try_catch (
    let partId := param req "partId" in
    let query := quote_query in
    result <- pool_query query [partId] ;;
    if Nat.eqb (length (rows result)) 0 then
      res_status 404 ;;
      res_json (error_body "Part not found in inventory.")
    else
      res_json (index (rows result) 0)
  ) (fun err =>
    console_error "Database error fetching quote:" err ;;
    res_status 500 ;;
    res_json (error_body "Internal server error while fetching repair quote.")).

(** The handlers by name. *)
Inductive Endpoint : Type := Health | Warranty | VerifyUser | Quote.

Definition handler (e : Endpoint) : Req -> M unit :=
  match e with
  | Health => health
  | Warranty => warranty
  | VerifyUser => verify_user
  | Quote => quote
  end.

Record Route : Type := {
  route_method : Method;
  route_path : string;
  route_endpoint : Endpoint
}.

(** The registrations, in the order of the file. *)
Definition routes : list Route :=
  [ {| route_method := GET; route_path := "/api/health";
       route_endpoint := Health |};
    {| route_method := GET; route_path := "/api/warranty/:serialNumber";
       route_endpoint := Warranty |};
    {| route_method := POST; route_path := "/api/verify-user";
       route_endpoint := VerifyUser |};
    {| route_method := GET; route_path := "/api/quote/:partId";
       route_endpoint := Quote |} ].

(** A route matches a request when it handles its method and its path
    matches with parameters that decode; the match gives the decoded route
    parameters. *)
Definition route_match (r : Route) (m : Method) (path : string)
  : option (list (string * string)) :=
  if handles_method (route_method r) m then
    match match_path (route_path r) path with
    | Matched ps => Some ps
    | _ => None
    end
  else None.

(** What the router does with a request: it runs a handler with the route
    parameters, or answers 400 itself and runs none, or finds no route and
    leaves the answer to Express. *)
Inductive Routed : Type :=
| Handle (e : Endpoint) (ps : list (string * string))
| BadRequest
| NotFound.

(** The router goes through the routes in the order of registration.  It
    matches the path first and looks at the method after.  A parameter that
    does not decode ends the search with the 400 of the router; otherwise
    the first route that matches path and method runs, and none of the
    handlers passes the request on. *)
Fixpoint first_match (rs : list Route) (m : Method) (path : string) : Routed :=
  match rs with
  | [] => NotFound
  | r :: rs' =>
      match match_path (route_path r) path with
      | NoMatch => first_match rs' m path
      | Malformed => BadRequest
      | Matched ps =>
          if handles_method (route_method r) m
          then Handle (route_endpoint r) ps
          else first_match rs' m path
      end
  end.

Definition dispatch (m : Method) (path : string) : Routed :=
  first_match routes m path.

(** What the router does with a request when [r] is the one route whose
    path matches. *)
Definition route_outcome (r : Route) (m : Method) (path : string) : Routed :=
  match match_path (route_path r) path with
  | NoMatch => NotFound
  | Malformed => BadRequest
  | Matched ps =>
      if handles_method (route_method r) m
      then Handle (route_endpoint r) ps
      else NotFound
  end.

(** The process between requests: everything but the response. *)
Record Server : Type := {
  server_pool : Pool;
  server_issued : list (string * list JsValue);
  server_console : list (string * JsError)
}.

Definition boot (p : Pool) : Server :=
  {| server_pool := p; server_issued := []; server_console := [] |}.

(** Serve one request: the handler runs on a fresh response. *)
Definition serve (e : Endpoint) (req : Req) (s : Server) : Res * Server :=
  let w := snd (handler e req {| pool := server_pool s;
                                 issued := server_issued s;
                                 console := server_console s;
                                 res := fresh_res |}) in
  (res w, {| server_pool := pool w;
             server_issued := issued w;
             server_console := console w |}).

(** The response to one request on a server just started on pool [p], and
    the statements this request sent. *)
Definition respond (e : Endpoint) (req : Req) (p : Pool) : Res :=
  fst (serve e req (boot p)).

Definition statements (e : Endpoint) (req : Req) (p : Pool)
  : list (string * list JsValue) :=
  server_issued (snd (serve e req (boot p))).

Definition reply (code : nat) (payload : JsValue) : Res :=
  {| statusCode := code; sent := Some payload |}.

(** The server once a request has sent one statement and logged [logged]. *)
Definition after (s : Server) (text : string) (values : list JsValue)
  (logged : list (string * JsError)) : Server :=
  {| server_pool := elapse (server_pool s);
     server_issued := server_issued s ++ [(text, values)];
     server_console := server_console s ++ logged |}.

(** The literal that tells the four route paths apart: the second segment,
    in lower case. *)
Definition tag (r : Route) : string :=
  match pattern_of (route_path r) with
  | _ :: Lit b :: _ => lowercase b
  | _ => EmptyString
  end.

(** The label of the [console.error] line in each handler's catch block. *)
Definition log_label (e : Endpoint) : string :=
  match e with
  | Health => "Database connection failed:"
  | Warranty => "Database error:"
  | VerifyUser => "Database error during verification:"
  | Quote => "Database error fetching quote:"
  end.

(** The message of the 500 response in each handler's catch block. *)
Definition failure_message (e : Endpoint) : string :=
  match e with
  | Health => "Failed to connect to Neon."
  | Warranty => "Internal server error while fetching warranty."
  | VerifyUser => "Internal server error during user verification."
  | Quote => "Internal server error while fetching repair quote."
  end.

(** The status codes each handler can end with: 200 unless [res.status]
    is called, and the codes it is called with. *)
Definition statuses (e : Endpoint) : list nat :=
  match e with
  | Health => [200; 500]
  | Warranty => [200; 404; 500]
  | VerifyUser => [200; 400; 401; 500]
  | Quote => [200; 404; 500]
  end.

End Api.
Export Api.

(** ** Sample data *)

Module Sample.

Definition twelve : spec_float := S754_finite false 3 2.

(** A reachable database with two rows in each table, whose clock moves
    on by a second from one statement to the next. *)
Definition neon : Pool :=
  {| pg_text := fun _ => "?";
     fault := fun _ _ => None;
     clock := fun n => (1793577600000 + 1000 * Z.of_nat n)%Z;
     external_warranties :=
       [ [("serial_number", JString "QL-1001");
          ("product", JString "Quantum Router");
          ("warranty_end", JDate 1798761600000)];
         [("serial_number", JString "QL-2002");
          ("product", JString "Link Hub");
          ("warranty_end", JNull)] ];
     external_customers :=
       [ [("customer_external_id", JString "CUST-001");
          ("full_name", JString "Ada Byron");
          ("email", JString "ada@example.com");
          ("account_status", JString "active");
          ("phone", JString "555-0100")];
         [("customer_external_id", JString "CUST-002");
          ("full_name", JString "Bob Noyce");
          ("email", JString "bob@example.com");
          ("account_status", JString "suspended");
          ("phone", JNull)] ];
     parts_pricing :=
       [ [("part_id", JString "P-100");
          ("part_name", JString "Antenna");
          ("base_price", JString "49.99");
          ("stock_quantity", JNumber twelve);
          ("compatibility_notes", JNull);
          ("supplier", JString "Acme")];
         [("part_id", JString "P-200");
          ("part_name", JString "Power Supply");
          ("base_price", JString "19.50");
          ("stock_quantity", JNumber (S754_zero false));
          ("compatibility_notes", JString "Hub only");
          ("supplier", JString "Acme")] ] |}.

(** The same database when no connection can be made. *)
Definition unreachable : Pool :=
  {| pg_text := pg_text neon;
     fault := fun _ _ => Some (DatabaseError "connect ECONNREFUSED");
     clock := clock neon;
     external_warranties := external_warranties neon;
     external_customers := external_customers neon;
     parts_pricing := parts_pricing neon |}.

Definition bare : Req := {| params := []; body := JObject [] |}.

Definition with_param (name value : string) : Req :=
  {| params := [(name, value)]; body := JObject [] |}.

Definition with_body (fields : list (string * JsValue)) : Req :=
  {| params := []; body := JObject fields |}.

Definition injection : string := "' OR '1'='1".

End Sample.

(** ** Lists, cells and statements *)

Section Rows.

Context {A : Type}.
Variable f : A -> bool.

Lemma filter_none (l : list A) :
  (forall x, In x l -> f x = false) -> filter f l = [].
Proof.
  induction l as [|a l IH]; intros H; simpl; [reflexivity|].
  rewrite (H a (or_introl eq_refl)). apply IH.
  intros x Hx. apply H. right. exact Hx.
Qed.

Lemma filter_first (l : list A) (r : A) :
  first_such (fun x => f x = true) l r ->
  exists rest, filter f l = r :: rest.
Proof.
  intros (before & after & -> & Hr & Hb).
  rewrite filter_app, (filter_none before); simpl.
  - rewrite Hr. eauto.
  - intros x Hx. specialize (Hb x Hx). destruct (f x); congruence.
Qed.

Lemma filter_head_in (l : list A) (r : A) (rest : list A) :
  filter f l = r :: rest -> In r l /\ f r = true.
Proof.
  intros H. apply filter_In. rewrite H. left. reflexivity.
Qed.

End Rows.

Lemma sql_eq_text (stored : JsValue) (t : string) :
  sql_eq stored (Some t) = true <-> stored = JString t.
Proof.
  destruct stored; simpl; try (split; [discriminate | intros H; discriminate H]).
  rewrite String.eqb_eq. split; [intros ->; reflexivity | intros H; congruence].
Qed.

Lemma sql_eq_text_false (stored : JsValue) (t : string) :
  stored <> JString t -> sql_eq stored (Some t) = false.
Proof.
  intros H. destruct (sql_eq stored (Some t)) eqn:E; [|reflexivity].
  apply sql_eq_text in E. contradiction.
Qed.

(** Each of the four statements raises exactly when the pool faults on it. *)
Lemma query_health (p : Pool) :
  Pg.query p health_query [] =
  match fault p health_query [] with
  | Some e => inl e
  | None => inr {| rows := [[("now", JDate (now p))]] |}
  end.
Proof. reflexivity. Qed.

Lemma query_warranty (p : Pool) (v : JsValue) :
  Pg.query p warranty_query [v] =
  match fault p warranty_query [v] with
  | Some e => inl e
  | None =>
      inr {| rows :=
               filter (fun r => sql_eq (cell "serial_number" r) (bound p v))
                      (external_warranties p) |}
  end.
Proof. reflexivity. Qed.

Lemma query_verify (p : Pool) (v1 v2 : JsValue) :
  Pg.query p verify_query [v1; v2] =
  match fault p verify_query [v1; v2] with
  | Some e => inl e
  | None =>
      inr {| rows :=
               map (project customer_columns)
                 (filter (fun r =>
                            sql_eq (cell "customer_external_id" r) (bound p v1)
                            && sql_eq (cell "email" r) (bound p v2))
                         (external_customers p)) |}
  end.
Proof. reflexivity. Qed.

Lemma query_quote (p : Pool) (v : JsValue) :
  Pg.query p quote_query [v] =
  match fault p quote_query [v] with
  | Some e => inl e
  | None =>
      inr {| rows :=
               map (project quote_columns)
                 (filter (fun r => sql_eq (cell "part_id" r) (bound p v))
                         (parts_pricing p)) |}
  end.
Proof. reflexivity. Qed.

(** ** What one request does to the server *)

Lemma after_nothing (s : Server) (text : string) (values : list JsValue) :
  {| server_pool := elapse (server_pool s);
     server_issued := server_issued s ++ [(text, values)];
     server_console := server_console s |} = after s text values [].
Proof. unfold after. rewrite app_nil_r. reflexivity. Qed.

Lemma serve_health (req : Req) (s : Server) :
  serve Health req s =
  match Pg.query (server_pool s) health_query [] with
  | inl e =>
      (reply 500 (error_body "Failed to connect to Neon."),
       after s health_query [] [("Database connection failed:", e)])
  | inr result =>
      match rows result with
      | [] =>
          (reply 500 (error_body "Failed to connect to Neon."),
           after s health_query []
             [("Database connection failed:",
               TypeError "Cannot read properties of undefined")])
      | r :: _ =>
          (reply 200 (JObject
             [("status", JString "QuantumLink API is connected to Neon Cloud!");
              ("db_time", get (JObject r) "now")]),
           after s health_query [] [])
      end
  end.
Proof.
  unfold serve, handler, health, try_catch, Api.bind, pool_query; simpl.
  destruct (Pg.query (server_pool s) health_query []) as [e|[rs]]; simpl.
  - reflexivity.
  - destruct rs as [|r rs]; simpl; [reflexivity|].
    rewrite after_nothing. reflexivity.
Qed.

Lemma serve_warranty (req : Req) (s : Server) :
  let serialNumber := param req "serialNumber" in
  serve Warranty req s =
  match Pg.query (server_pool s) warranty_query [serialNumber] with
  | inl e =>
      (reply 500 (error_body "Internal server error while fetching warranty."),
       after s warranty_query [serialNumber] [("Database error:", e)])
  | inr result =>
      match rows result with
      | [] =>
          (reply 404 (error_body "Warranty not found for this serial number."),
           after s warranty_query [serialNumber] [])
      | r :: _ =>
          (reply 200 (JObject r), after s warranty_query [serialNumber] [])
      end
  end.
Proof.
  unfold serve, handler, warranty, try_catch, Api.bind, pool_query; simpl.
  destruct (Pg.query (server_pool s) warranty_query [param req "serialNumber"])
    as [e|[rs]]; simpl.
  - reflexivity.
  - destruct rs as [|r rs]; simpl; rewrite after_nothing; reflexivity.
Qed.

Lemma serve_quote (req : Req) (s : Server) :
  let partId := param req "partId" in
  serve Quote req s =
  match Pg.query (server_pool s) quote_query [partId] with
  | inl e =>
      (reply 500
         (error_body "Internal server error while fetching repair quote."),
       after s quote_query [partId] [("Database error fetching quote:", e)])
  | inr result =>
      match rows result with
      | [] =>
          (reply 404 (error_body "Part not found in inventory."),
           after s quote_query [partId] [])
      | r :: _ => (reply 200 (JObject r), after s quote_query [partId] [])
      end
  end.
Proof.
  unfold serve, handler, quote, try_catch, Api.bind, pool_query; simpl.
  destruct (Pg.query (server_pool s) quote_query [param req "partId"])
    as [e|[rs]]; simpl.
  - reflexivity.
  - destruct rs as [|r rs]; simpl; rewrite after_nothing; reflexivity.
Qed.

Lemma serve_verify_user (req : Req) (s : Server) :
  let externalAccountId := get (body req) "externalAccountId" in
  let email := get (body req) "email" in
  serve VerifyUser req s =
  if nullish (body req) then
    (reply 500 (error_body "Internal server error during user verification."),
     {| server_pool := server_pool s;
        server_issued := server_issued s;
        server_console :=
          server_console s ++
          [("Database error during verification:",
            TypeError "Cannot destructure")] |})
  else if negb (truthy externalAccountId) || negb (truthy email) then
    (reply 400
       (error_body "Missing required fields: externalAccountId or email."), s)
  else
    match Pg.query (server_pool s) verify_query [externalAccountId; email] with
    | inl e =>
        (reply 500
           (error_body "Internal server error during user verification."),
         after s verify_query [externalAccountId; email]
           [("Database error during verification:", e)])
    | inr result =>
        match rows result with
        | [] =>
            (reply 401 (JObject
               [("verified", JBool false);
                ("message",
                 JString "Identity verification failed. No match found in external system.")]),
             after s verify_query [externalAccountId; email] [])
        | r :: _ =>
            (reply 200 (JObject
               [("verified", JBool true); ("customer", JObject r)]),
             after s verify_query [externalAccountId; email] [])
        end
    end.
Proof.
  unfold serve, handler, verify_user, try_catch, Api.bind, destructure; simpl.
  destruct (nullish (body req)); simpl; [reflexivity|].
  destruct (negb (truthy (get (body req) "externalAccountId"))
            || negb (truthy (get (body req) "email"))); simpl.
  - destruct s; reflexivity.
  - unfold pool_query; simpl.
    destruct (Pg.query (server_pool s) verify_query
                [get (body req) "externalAccountId"; get (body req) "email"])
      as [e|[rs]]; simpl.
    + reflexivity.
    + destruct rs as [|r rs]; simpl; rewrite after_nothing; reflexivity.
Qed.

Lemma first_such_ext {A : Type} (P Q : A -> Prop) (l : list A) (r : A) :
  (forall x, P x <-> Q x) -> first_such P l r -> first_such Q l r.
Proof.
  intros HPQ (before & after' & -> & Hr & Hb).
  exists before, after'. split; [reflexivity|]. split; [apply HPQ; exact Hr|].
  intros x Hx HQ. apply (Hb x Hx). apply HPQ. exact HQ.
Qed.

Lemma truthy_falsy (v : JsValue) : truthy v = false <-> falsy v.
Proof.
  split.
  - destruct v as [| |[]|[]|[]| | |]; simpl; intros H;
      try discriminate H; constructor.
  - intros []; reflexivity.
Qed.

(** ** The request/response contract *)

(** C3. Warranty lookup, for the serial number of the path: when the
    statement raises the response is 500 with the warranty error message;
    when it does not raise and no row of the warranty table has that serial
    number, the response is 404; when it does not raise and [r] is the first
    row of the table with that serial number, the response is 200 and its
    body is [r], every column as stored. *)
Theorem warranty_lookup (p : Pool) (req : Req) (serialNumber : string) :
  param req "serialNumber" = JString serialNumber ->
  (raises p warranty_query [JString serialNumber] ->
   respond Warranty req p =
   reply 500 (error_body "Internal server error while fetching warranty."))
  /\ (~ raises p warranty_query [JString serialNumber] ->
      (forall r, In r (external_warranties p) ->
                 cell "serial_number" r <> JString serialNumber) ->
      respond Warranty req p =
      reply 404 (error_body "Warranty not found for this serial number."))
  /\ (~ raises p warranty_query [JString serialNumber] ->
      forall r,
        first_such (fun x => cell "serial_number" x = JString serialNumber)
                   (external_warranties p) r ->
        respond Warranty req p = reply 200 (JObject r)).
Proof.
  intros Hparam. unfold respond, raises.
  rewrite serve_warranty, Hparam. cbn [boot server_pool].
  rewrite query_warranty. simpl.
  destruct (fault p warranty_query [JString serialNumber]) as [e|] eqn:F.
  - split; [reflexivity|].
    split; intros Hok; exfalso; apply Hok; eexists; reflexivity.
  - split; [intros [e He]; discriminate He|].
    split; intros _.
    + intros Hnone. rewrite filter_none; [reflexivity|].
      intros r Hr. apply sql_eq_text_false. apply Hnone. exact Hr.
    + intros r Hfirst.
      destruct (filter_first
                  (fun x => sql_eq (cell "serial_number" x) (Some serialNumber))
                  (external_warranties p) r) as [rest Hrest].
      * revert Hfirst. apply first_such_ext.
        intros x. symmetry. apply sql_eq_text.
      * rewrite Hrest. reflexivity.
Qed.

(** C4. Repair quote, for the part id of the path: when the statement
    raises the response is 500 with the quote error message; when it does
    not raise and no row of the pricing table has that part id, the response
    is 404; when it does not raise and [r] is the first row of the table with
    that part id, the response is 200 and its body has exactly the five
    fields part_id, part_name, base_price, stock_quantity and
    compatibility_notes, each with the value [r] stores. *)
Theorem quote_lookup (p : Pool) (req : Req) (partId : string) :
  param req "partId" = JString partId ->
  (raises p quote_query [JString partId] ->
   respond Quote req p =
   reply 500
     (error_body "Internal server error while fetching repair quote."))
  /\ (~ raises p quote_query [JString partId] ->
      (forall r, In r (parts_pricing p) ->
                 cell "part_id" r <> JString partId) ->
      respond Quote req p =
      reply 404 (error_body "Part not found in inventory."))
  /\ (~ raises p quote_query [JString partId] ->
      forall r,
        first_such (fun x => cell "part_id" x = JString partId)
                   (parts_pricing p) r ->
        respond Quote req p =
        reply 200 (JObject
          [("part_id", cell "part_id" r);
           ("part_name", cell "part_name" r);
           ("base_price", cell "base_price" r);
           ("stock_quantity", cell "stock_quantity" r);
           ("compatibility_notes", cell "compatibility_notes" r)])).
Proof.
  intros Hparam. unfold respond, raises.
  rewrite serve_quote, Hparam. cbn [boot server_pool].
  rewrite query_quote. simpl.
  destruct (fault p quote_query [JString partId]) as [e|] eqn:F.
  - split; [reflexivity|].
    split; intros Hok; exfalso; apply Hok; eexists; reflexivity.
  - split; [intros [e He]; discriminate He|].
    split; intros _.
    + intros Hnone. rewrite filter_none; [reflexivity|].
      intros r Hr. apply sql_eq_text_false. apply Hnone. exact Hr.
    + intros r Hfirst.
      destruct (filter_first
                  (fun x => sql_eq (cell "part_id" x) (Some partId))
                  (parts_pricing p) r) as [rest Hrest].
      * revert Hfirst. apply first_such_ext.
        intros x. symmetry. apply sql_eq_text.
      * rewrite Hrest. reflexivity.
Qed.

Lemma both_eq_text (r : Row) (a e : string) :
  sql_eq (cell "customer_external_id" r) (Some a)
  && sql_eq (cell "email" r) (Some e) = true <->
  cell "customer_external_id" r = JString a /\ cell "email" r = JString e.
Proof.
  rewrite andb_true_iff, !sql_eq_text. reflexivity.
Qed.

Lemma truthy_bound (p : Pool) (v : JsValue) :
  truthy v = true -> bound p v = Some (param_text p v).
Proof. destruct v; simpl; intros H; try discriminate H; reflexivity. Qed.

Lemma truthy_get_body (b : JsValue) (k : string) :
  truthy (get b k) = true -> nullish b = false.
Proof. destruct b; simpl; intros H; try discriminate H; reflexivity. Qed.

(** C1. Identity verification, for a body whose [externalAccountId] and
    [email] are both present and truthy, so that validation passes: when the
    statement raises the response is 500 with the verification error
    message; when it does not raise and no row of the customer table has
    both its customer_external_id equal to the text of [externalAccountId]
    and its email equal to the text of [email], the response is 401 with
    [verified: false] and the failure message; when it does not raise and
    [r] is the first row that has both, the response is 200 with
    [verified: true] and, as [customer], the customer_external_id,
    full_name, email and account_status of [r].  The text of a string is
    the string itself, so for string fields this is exact string
    equality. *)
Theorem verify_user_match (p : Pool) (req : Req) (externalAccountId email : JsValue) :
  get (body req) "externalAccountId" = externalAccountId ->
  get (body req) "email" = email ->
  truthy externalAccountId = true ->
  truthy email = true ->
  let same_row (r : Row) :=
    cell "customer_external_id" r = JString (param_text p externalAccountId)
    /\ cell "email" r = JString (param_text p email) in
  let values := [externalAccountId; email] in
  (raises p verify_query values ->
   respond VerifyUser req p =
   reply 500 (error_body "Internal server error during user verification."))
  /\ (~ raises p verify_query values ->
      (forall r, In r (external_customers p) -> ~ same_row r) ->
      respond VerifyUser req p =
      reply 401 (JObject
        [("verified", JBool false);
         ("message",
          JString "Identity verification failed. No match found in external system.")]))
  /\ (~ raises p verify_query values ->
      forall r,
        first_such same_row (external_customers p) r ->
        respond VerifyUser req p =
        reply 200 (JObject
          [("verified", JBool true);
           ("customer", JObject
              [("customer_external_id", cell "customer_external_id" r);
               ("full_name", cell "full_name" r);
               ("email", cell "email" r);
               ("account_status", cell "account_status" r)])])).
Proof.
  intros Hid Hemail Hid_ok Hemail_ok same_row values.
  assert (Hbody : nullish (body req) = false).
  { apply (truthy_get_body _ "email"). rewrite Hemail. exact Hemail_ok. }
  unfold respond, raises, values.
  rewrite serve_verify_user, Hbody, Hid, Hemail, Hid_ok, Hemail_ok.
  cbn [negb orb boot server_pool].
  rewrite query_verify.
  rewrite (truthy_bound p _ Hid_ok), (truthy_bound p _ Hemail_ok).
  destruct (fault p verify_query [externalAccountId; email]) as [e|] eqn:F.
  - split; [reflexivity|].
    split; intros Hok; exfalso; apply Hok; eexists; reflexivity.
  - split; [intros [e He]; discriminate He|].
    split; intros _; cbn [rows].
    + intros Hnone. rewrite filter_none; [reflexivity|].
      intros r Hr. specialize (Hnone r Hr).
      destruct (sql_eq (cell "customer_external_id" r)
                       (Some (param_text p externalAccountId))
                && sql_eq (cell "email" r) (Some (param_text p email))) eqn:E;
        [|reflexivity].
      apply both_eq_text in E. contradiction.
    + intros r Hfirst.
      destruct (filter_first
                  (fun x =>
                     sql_eq (cell "customer_external_id" x)
                            (Some (param_text p externalAccountId))
                     && sql_eq (cell "email" x) (Some (param_text p email)))
                  (external_customers p) r) as [rest Hrest].
      * revert Hfirst. apply first_such_ext.
        intros x. symmetry. apply both_eq_text.
      * rewrite Hrest. reflexivity.
Qed.

Lemma verify_user_missing_fields_aux (req : Req) (s : Server) :
  nullish (body req) = false ->
  falsy (get (body req) "externalAccountId")
  \/ falsy (get (body req) "email") ->
  serve VerifyUser req s =
  (reply 400
     (error_body "Missing required fields: externalAccountId or email."),
   s).
Proof.
  intros Hbody Hfalsy.
  rewrite serve_verify_user, Hbody.
  destruct Hfalsy as [H|H]; apply truthy_falsy in H; rewrite H;
    [|rewrite orb_true_r]; reflexivity.
Qed.

(** Identity verification, for a parsed body in which
    [externalAccountId] or [email] is missing or falsy: the response is 400
    with the missing-fields message, and the server is left exactly as it
    was, whatever its pool holds: no statement is sent and nothing is
    logged. *)
Theorem verify_user_missing_fields (req : Req) :
  nullish (body req) = false ->
  falsy (get (body req) "externalAccountId")
  \/ falsy (get (body req) "email") ->
  forall s : Server,
    serve VerifyUser req s =
    (reply 400
       (error_body "Missing required fields: externalAccountId or email."),
     s).
Proof.
  intros Hbody Hfalsy s.
  apply verify_user_missing_fields_aux; assumption.
Qed.

(** C10. Identity verification, for a JSON object body in which
    [externalAccountId] or [email] is present with a falsy value (the empty
    string, a zero, NaN, [false], [null]): the response is 400 with the
    missing-fields message and the server is left exactly as it was, so no
    statement is sent and the 401/200 branches are never reached. *)
Theorem verify_user_falsy_field
  (fields : list (string * JsValue)) (name : string) (v : JsValue) :
  name = "externalAccountId" \/ name = "email" ->
  assoc name fields = Some v ->
  falsy v ->
  forall (route_params : list (string * string)) (s : Server),
    let req := {| params := route_params; body := JObject fields |} in
    serve VerifyUser req s =
    (reply 400
       (error_body "Missing required fields: externalAccountId or email."),
     s)
    /\ server_issued (snd (serve VerifyUser req s)) = server_issued s
    /\ statusCode (fst (serve VerifyUser req s)) <> 401
    /\ statusCode (fst (serve VerifyUser req s)) <> 200.
Proof.
  intros Hname Hpresent Hfalsy route_params s req.
  assert (Hserve : serve VerifyUser req s =
                   (reply 400
                      (error_body
                         "Missing required fields: externalAccountId or email."),
                    s)).
  { apply verify_user_missing_fields_aux; [reflexivity|].
    destruct Hname as [->| ->]; [left|right];
      unfold req; simpl; rewrite Hpresent; exact Hfalsy. }
  rewrite Hserve. simpl.
  repeat split; discriminate.
Qed.

Lemma reply_200_inv (code : nat) (a b : JsValue) :
  reply code a = reply 200 b -> code = 200 /\ a = b.
Proof. unfold reply. intros H. injection H as -> ->. split; reflexivity. Qed.

(** C5. Both lookups take the key of the path literally, whatever
    characters it holds.  The statement sent is the fixed SQL text with the
    key as its one bound value; when it does not raise and no row of the
    table stores exactly that key, the response is 404; and a 200 response
    carries a row of the table (for a quote, its five-field projection)
    whose stored key equals the whole parameter. *)
Theorem lookup_key_is_literal (p : Pool) (key : string) :
  (forall req : Req,
     param req "serialNumber" = JString key ->
     statements Warranty req p = [(warranty_query, [JString key])]
     /\ (~ raises p warranty_query [JString key] ->
         (forall r, In r (external_warranties p) ->
                    cell "serial_number" r <> JString key) ->
         respond Warranty req p =
         reply 404 (error_body "Warranty not found for this serial number."))
     /\ (forall payload,
           respond Warranty req p = reply 200 payload ->
           exists r, payload = JObject r
                     /\ In r (external_warranties p)
                     /\ cell "serial_number" r = JString key))
  /\ (forall req : Req,
        param req "partId" = JString key ->
        statements Quote req p = [(quote_query, [JString key])]
        /\ (~ raises p quote_query [JString key] ->
            (forall r, In r (parts_pricing p) ->
                       cell "part_id" r <> JString key) ->
            respond Quote req p =
            reply 404 (error_body "Part not found in inventory."))
        /\ (forall payload,
              respond Quote req p = reply 200 payload ->
              exists r, payload = JObject (project quote_columns r)
                        /\ In r (parts_pricing p)
                        /\ cell "part_id" r = JString key)).
Proof.
  split; intros req Hparam; unfold statements, respond, raises.
  - rewrite serve_warranty, Hparam. cbn [boot server_pool].
    rewrite query_warranty. cbn [bound param_text].
    destruct (fault p warranty_query [JString key]) as [e|] eqn:F.
    + split; [reflexivity|].
      split; [intros Hok; exfalso; apply Hok; eexists; reflexivity|].
      intros payload H. apply reply_200_inv in H. destruct H; discriminate.
    + cbn [rows].
      destruct (filter (fun r => sql_eq (cell "serial_number" r) (Some key))
                       (external_warranties p)) as [|r rest] eqn:E.
      * split; [reflexivity|]. split; [reflexivity|].
        intros payload H. apply reply_200_inv in H. destruct H; discriminate.
      * split; [reflexivity|].
        apply filter_head_in in E. destruct E as [Hin Hkey].
        apply sql_eq_text in Hkey.
        split.
        -- intros _ Hnone. elim (Hnone r Hin Hkey).
        -- intros payload H. apply reply_200_inv in H. destruct H as [_ <-].
           exists r. auto.
  - rewrite serve_quote, Hparam. cbn [boot server_pool].
    rewrite query_quote. cbn [bound param_text].
    destruct (fault p quote_query [JString key]) as [e|] eqn:F.
    + split; [reflexivity|].
      split; [intros Hok; exfalso; apply Hok; eexists; reflexivity|].
      intros payload H. apply reply_200_inv in H. destruct H; discriminate.
    + cbn [rows].
      destruct (filter (fun r => sql_eq (cell "part_id" r) (Some key))
                       (parts_pricing p)) as [|r rest] eqn:E.
      * split; [reflexivity|]. split; [reflexivity|].
        intros payload H. apply reply_200_inv in H. destruct H; discriminate.
      * split; [reflexivity|].
        apply filter_head_in in E. destruct E as [Hin Hkey].
        apply sql_eq_text in Hkey.
        split.
        -- intros _ Hnone. elim (Hnone r Hin Hkey).
        -- intros payload H. cbn [map fst] in H.
           apply reply_200_inv in H. destruct H as [_ <-].
           exists r. auto.
Qed.

(** C6, as the code has it. Health check: when the statement raises, the
    response is 500 and its body is exactly
    [{error: "Failed to connect to Neon."}]; when it does not raise, the
    response is 200 with the fixed status text and, as [db_time], the
    timestamp the statement returned. *)
Theorem health_check (p : Pool) (req : Req) :
  (raises p health_query [] ->
   respond Health req p = reply 500 (error_body "Failed to connect to Neon."))
  /\ (~ raises p health_query [] ->
      respond Health req p =
      reply 200 (JObject
        [("status", JString "QuantumLink API is connected to Neon Cloud!");
         ("db_time", JDate (now p))])).
Proof.
  unfold respond, raises. rewrite serve_health. cbn [boot server_pool].
  rewrite query_health.
  destruct (fault p health_query []) as [e|] eqn:F.
  - split; [reflexivity|].
    intros Hok; exfalso; apply Hok; eexists; reflexivity.
  - split; [intros [e He]; discriminate He|]. reflexivity.
Qed.

Lemma same_data_elapse (p : Pool) : same_data (elapse p) p.
Proof. repeat split. Qed.

Lemma same_data_refl (p : Pool) : same_data p p.
Proof. repeat split. Qed.

Lemma serve_keeps_data (e : Endpoint) (req : Req) (s : Server) :
  same_data (server_pool (snd (serve e req s))) (server_pool s).
Proof.
  destruct e.
  - rewrite serve_health.
    destruct (Pg.query _ _ _) as [?|[[|? ?]]]; apply same_data_elapse.
  - rewrite serve_warranty.
    destruct (Pg.query _ _ _) as [?|[[|? ?]]]; apply same_data_elapse.
  - rewrite serve_verify_user.
    destruct (nullish _); [apply same_data_refl|].
    destruct (_ || _); [apply same_data_refl|].
    destruct (Pg.query _ _ _) as [?|[[|? ?]]]; apply same_data_elapse.
  - rewrite serve_quote.
    destruct (Pg.query _ _ _) as [?|[[|? ?]]]; apply same_data_elapse.
Qed.

Lemma serve_response (e : Endpoint) (req : Req) (s : Server) :
  fst (serve e req s) = respond e req (server_pool s).
Proof.
  unfold respond. destruct e.
  - rewrite !serve_health. cbn [boot server_pool].
    destruct (Pg.query _ _ _) as [?|[[|? ?]]]; reflexivity.
  - rewrite !serve_warranty. cbn [boot server_pool].
    destruct (Pg.query _ _ _) as [?|[[|? ?]]]; reflexivity.
  - rewrite !serve_verify_user. cbn [boot server_pool].
    destruct (nullish _); [reflexivity|].
    destruct (_ || _); [reflexivity|].
    destruct (Pg.query _ _ _) as [?|[[|? ?]]]; reflexivity.
  - rewrite !serve_quote. cbn [boot server_pool].
    destruct (Pg.query _ _ _) as [?|[[|? ?]]]; reflexivity.
Qed.

(** The lookups do not read the clock. *)
Lemma respond_warranty_same_data (req : Req) (p p' : Pool) :
  same_data p p' -> respond Warranty req p = respond Warranty req p'.
Proof.
  intros H. destruct p, p'. unfold same_data in H. cbn in H.
  destruct H as (-> & -> & -> & -> & ->).
  unfold respond. rewrite !serve_warranty. cbn [boot server_pool].
  rewrite !query_warranty.
  cbn [fault pg_text external_warranties parts_pricing bound param_text].
  destruct (fault1 _ _); [reflexivity|].
  cbn [rows]. destruct (filter _ _); reflexivity.
Qed.

Lemma respond_quote_same_data (req : Req) (p p' : Pool) :
  same_data p p' -> respond Quote req p = respond Quote req p'.
Proof.
  intros H. destruct p, p'. unfold same_data in H. cbn in H.
  destruct H as (-> & -> & -> & -> & ->).
  unfold respond. rewrite !serve_quote. cbn [boot server_pool].
  rewrite !query_quote.
  cbn [fault pg_text external_warranties parts_pricing bound param_text].
  destruct (fault1 _ _); [reflexivity|].
  cbn [rows]. destruct (filter _ _); reflexivity.
Qed.

Lemma respond_health (req : Req) (p : Pool) :
  respond Health req p =
  match fault p health_query [] with
  | Some _ => reply 500 (error_body "Failed to connect to Neon.")
  | None =>
      reply 200 (JObject
        [("status", JString "QuantumLink API is connected to Neon Cloud!");
         ("db_time", JDate (clock p 0))])
  end.
Proof.
  unfold respond. rewrite serve_health. cbn [boot server_pool].
  rewrite query_health. destruct (fault p health_query []); reflexivity.
Qed.

Lemma raises_health (p : Pool) :
  raises p health_query [] <-> fault p health_query [] <> None.
Proof.
  unfold raises. rewrite query_health.
  destruct (fault p health_query []) as [e|].
  - split; [discriminate | eauto].
  - split; [intros [e He]; discriminate He | intros H; elim H; reflexivity].
Qed.

(** C8, as the code has it. Serving a request leaves the driver, the
    faults and the tables of the pool as they were.  A warranty lookup
    and a quote give the same response (status code and body) on any two
    servers whose pools hold the same data, whatever the clock and the
    logs, and so give the identical response when the same request is
    served a second time.  A health check served a second time gives the
    identical 500 when the statement raises; when it does not, both
    responses are 200 with the fixed status text, each with the clock
    reading of its own statement as [db_time], so they are identical
    exactly when the clock reads the same at both. *)
Theorem get_is_repeatable (req : Req) (s : Server) :
  let p := server_pool s in
  let again (e : Endpoint) := fst (serve e req (snd (serve e req s))) in
  let healthy (t : Z) :=
    reply 200 (JObject
      [("status", JString "QuantumLink API is connected to Neon Cloud!");
       ("db_time", JDate t)]) in
  (forall e, same_data (server_pool (snd (serve e req s))) p)
  /\ (forall s', same_data (server_pool s') p ->
                 fst (serve Warranty req s') = fst (serve Warranty req s))
  /\ (forall s', same_data (server_pool s') p ->
                 fst (serve Quote req s') = fst (serve Quote req s))
  /\ again Warranty = fst (serve Warranty req s)
  /\ again Quote = fst (serve Quote req s)
  /\ (raises p health_query [] -> again Health = fst (serve Health req s))
  /\ (~ raises p health_query [] ->
      fst (serve Health req s) = healthy (clock p 0)
      /\ again Health = healthy (clock p 1)
      /\ (again Health = fst (serve Health req s) <-> clock p 1 = clock p 0)).
Proof.
  intros p again healthy.
  assert (Hkept : forall e,
             same_data (server_pool (snd (serve e req s))) p)
    by (intros e; apply serve_keeps_data).
  assert (Hagain : server_pool (snd (serve Health req s)) = elapse p).
  { rewrite serve_health.
    destruct (Pg.query _ _ _) as [?|[[|? ?]]]; reflexivity. }
  split; [exact Hkept|].
  split; [intros s' H; rewrite !serve_response;
          apply respond_warranty_same_data; exact H|].
  split; [intros s' H; rewrite !serve_response;
          apply respond_quote_same_data; exact H|].
  split; [unfold again; rewrite !serve_response;
          apply respond_warranty_same_data; apply Hkept|].
  split; [unfold again; rewrite !serve_response;
          apply respond_quote_same_data; apply Hkept|].
  unfold again. rewrite !serve_response, Hagain, !respond_health.
  rewrite raises_health. fold p. cbn [elapse fault clock].
  destruct (fault p health_query []) as [e|].
  - split; [reflexivity|]. intros H. elim H. discriminate.
  - split; [intros H; elim H; reflexivity|]. intros _.
    split; [reflexivity|]. split; [reflexivity|].
    unfold healthy, reply. split; [intros H; congruence | intros ->; reflexivity].
Qed.

Lemma match_two_literals (a b : string) (pat : list Segment)
  (segs : list string) (ps : list (string * string)) :
  match_segments (Lit a :: Lit b :: pat) segs = Some ps ->
  exists s1 s2 rest, segs = s1 :: s2 :: rest /\ lowercase s2 = lowercase b.
Proof.
  destruct segs as [|s1 [|s2 rest]]; cbn [match_segments].
  - discriminate.
  - destruct (String.eqb (lowercase a) (lowercase s1)); discriminate.
  - destruct (String.eqb (lowercase a) (lowercase s1)); [|discriminate].
    destruct (String.eqb (lowercase b) (lowercase s2)) eqn:E; [|discriminate].
    intros _. apply String.eqb_eq in E. eauto.
Qed.

Lemma path_match_tag (r : Route) (path : string) :
  In r routes ->
  match_path (route_path r) path <> NoMatch ->
  exists s0 s1 s2 rest,
    split_path path = s0 :: s1 :: s2 :: rest /\ lowercase s2 = tag r.
Proof.
  intros Hin. unfold match_path.
  destruct (split_path path) as [|s0 segs]; [intros H; elim H; reflexivity|].
  destruct s0; [|intros H; elim H; reflexivity].
  destruct (match_segments (pattern_of (route_path r)) segs) as [captured|] eqn:E;
    [|intros H; elim H; reflexivity].
  intros _.
  assert (Hpat : exists a b pat,
             pattern_of (route_path r) = Lit a :: Lit b :: pat
             /\ tag r = lowercase b).
  { unfold tag.
    destruct Hin as [<-|[<-|[<-|[<-|[]]]]]; cbn;
      do 3 eexists; split; reflexivity. }
  destruct Hpat as (a & b & pat & Hpat & Htag).
  rewrite Hpat in E. apply match_two_literals in E.
  destruct E as (s1 & s2 & rest & -> & Hs2).
  exists EmptyString, s1, s2, rest. split; [reflexivity|]. congruence.
Qed.

Lemma tag_injective (r r' : Route) :
  In r routes -> In r' routes -> tag r = tag r' -> r = r'.
Proof.
  intros Hr Hr'.
  destruct Hr as [<-|[<-|[<-|[<-|[]]]]];
    destruct Hr' as [<-|[<-|[<-|[<-|[]]]]];
    vm_compute; intros H; try reflexivity; discriminate H.
Qed.

Lemma path_match_unique (r r' : Route) (path : string) :
  In r routes -> In r' routes ->
  match_path (route_path r) path <> NoMatch ->
  match_path (route_path r') path <> NoMatch ->
  r' = r.
Proof.
  intros Hr Hr' H H'.
  destruct (path_match_tag _ _ Hr H) as (s0 & s1 & s2 & rest & E & T).
  destruct (path_match_tag _ _ Hr' H') as (t0 & t1 & t2 & rest' & E' & T').
  rewrite E in E'. injection E' as _ _ <- _.
  apply tag_injective; [assumption..|congruence].
Qed.

Lemma first_match_at_most (rs : list Route) (r : Route) (m : Method)
  (path : string) :
  (forall r', In r' rs -> match_path (route_path r') path <> NoMatch ->
              r' = r) ->
  first_match rs m path = NotFound
  \/ first_match rs m path = route_outcome r m path.
Proof.
  unfold route_outcome.
  induction rs as [|r0 rs IH]; intros Honly; [left; reflexivity|].
  cbn [first_match].
  assert (Hrest : forall r', In r' rs ->
                    match_path (route_path r') path <> NoMatch -> r' = r)
    by (intros r' Hr'; apply Honly; right; exact Hr').
  destruct (match_path (route_path r0) path) as [| |ps] eqn:E0.
  - apply IH. exact Hrest.
  - rewrite (Honly r0 (or_introl eq_refl)) in E0
      by (rewrite E0; discriminate).
    rewrite E0. right. reflexivity.
  - assert (H0 : r0 = r)
      by (apply Honly; [left; reflexivity | rewrite E0; discriminate]).
    subst r0. rewrite E0.
    destruct (handles_method (route_method r) m); [right; reflexivity|].
    destruct (IH Hrest) as [H|H]; [left; exact H|].
    rewrite E0 in H. left. exact H.
Qed.

Lemma first_match_only (rs : list Route) (r : Route) (m : Method)
  (path : string) :
  (forall r', In r' rs -> match_path (route_path r') path <> NoMatch ->
              r' = r) ->
  In r rs ->
  first_match rs m path = route_outcome r m path.
Proof.
  induction rs as [|r0 rs IH]; intros Honly Hin; [destruct Hin|].
  assert (Hrest : forall r', In r' rs ->
                    match_path (route_path r') path <> NoMatch -> r' = r)
    by (intros r' Hr'; apply Honly; right; exact Hr').
  pose proof (first_match_at_most rs r m path Hrest) as Hmost.
  unfold route_outcome in *. cbn [first_match].
  destruct (match_path (route_path r0) path) as [| |ps] eqn:E0.
  - destruct Hin as [->|Hin]; [|apply IH; assumption].
    rewrite E0 in *. destruct Hmost as [H|H]; exact H.
  - rewrite (Honly r0 (or_introl eq_refl)) in E0
      by (rewrite E0; discriminate).
    rewrite E0. reflexivity.
  - assert (H0 : r0 = r)
      by (apply Honly; [left; reflexivity | rewrite E0; discriminate]).
    subst r0. rewrite E0 in *.
    destruct (handles_method (route_method r) m); [reflexivity|].
    destruct Hmost as [H|H]; exact H.
Qed.

Lemma route_match_inv (r : Route) (m : Method) (path : string)
  (ps : list (string * string)) :
  route_match r m path = Some ps ->
  handles_method (route_method r) m = true
  /\ match_path (route_path r) path = Matched ps.
Proof.
  unfold route_match.
  destruct (handles_method (route_method r) m); [|discriminate].
  destruct (match_path (route_path r) path); try discriminate.
  intros H. injection H as ->. split; reflexivity.
Qed.

(** C7, as the code has it. The router holds exactly four routes, to four
    different handlers; a request that matches a registered route, its
    route parameter decoded, is dispatched to the handler of that route,
    with the decoded parameters, and matches no other route; and when the
    path matches a route but its parameter is a malformed escape, the
    router answers 400 itself and runs no handler, whatever the method. *)
Theorem router_dispatch :
  length routes = 4
  /\ NoDup (map route_endpoint routes)
  /\ (forall (r : Route) (m : Method) (path : string)
             (ps : list (string * string)),
        In r routes ->
        route_match r m path = Some ps ->
        dispatch m path = Handle (route_endpoint r) ps
        /\ forall r' ps',
             In r' routes -> route_match r' m path = Some ps' -> r' = r)
  /\ (forall (r : Route) (m : Method) (path : string),
        In r routes ->
        match_path (route_path r) path = Malformed ->
        dispatch m path = BadRequest).
Proof.
  split; [reflexivity|]. split; [|split].
  - cbn. repeat constructor; cbn; intuition discriminate.
  - intros r m path ps Hin Hmatch.
    apply route_match_inv in Hmatch. destruct Hmatch as [Hmethod Hpath].
    assert (Honly : forall r', In r' routes ->
               match_path (route_path r') path <> NoMatch -> r' = r).
    { intros r' Hr' H'. apply (path_match_unique r r' path Hin Hr'); [|exact H'].
      rewrite Hpath. discriminate. }
    split.
    + unfold dispatch. rewrite (first_match_only routes r m path Honly Hin).
      unfold route_outcome. rewrite Hpath, Hmethod. reflexivity.
    + intros r' ps' Hr' H'. apply route_match_inv in H'.
      apply Honly; [exact Hr'|]. destruct H' as [_ ->]. discriminate.
  - intros r m path Hin Hpath.
    assert (Honly : forall r', In r' routes ->
               match_path (route_path r') path <> NoMatch -> r' = r).
    { intros r' Hr' H'. apply (path_match_unique r r' path Hin Hr'); [|exact H'].
      rewrite Hpath. discriminate. }
    unfold dispatch. rewrite (first_match_only routes r m path Honly Hin).
    unfold route_outcome. rewrite Hpath. reflexivity.
Qed.

(** ** The contract on the sample data *)

Import Sample.

Lemma neon_answers (text : string) (values : list JsValue) :
  select neon text values <> None -> ~ raises neon text values.
Proof.
  intros Hsel [e He]. unfold Pg.query in He. cbn [fault neon] in He.
  destruct (select neon text values); [discriminate He|].
  apply Hsel. reflexivity.
Qed.

Lemma unreachable_raises (text : string) (values : list JsValue) :
  raises unreachable text values.
Proof. eexists. reflexivity. Qed.

(** The second warranty row is found under its serial number and returned
    whole; an unknown serial number gives 404; an unreachable database
    gives 500. *)
Lemma warranty_lookup_witness :
  respond Warranty (with_param "serialNumber" "QL-2002") neon =
  reply 200 (JObject
    [("serial_number", JString "QL-2002");
     ("product", JString "Link Hub");
     ("warranty_end", JNull)])
  /\ respond Warranty (with_param "serialNumber" "QL-9999") neon =
     reply 404 (error_body "Warranty not found for this serial number.")
  /\ respond Warranty (with_param "serialNumber" "QL-2002") unreachable =
     reply 500 (error_body "Internal server error while fetching warranty.").
Proof.
  split; [|split].
  - apply (proj2 (proj2 (warranty_lookup neon
                           (with_param "serialNumber" "QL-2002") "QL-2002"
                           eq_refl))).
    + apply neon_answers. discriminate.
    + exists [ [("serial_number", JString "QL-1001");
                ("product", JString "Quantum Router");
                ("warranty_end", JDate 1798761600000)] ], [].
      split; [reflexivity|]. split; [reflexivity|].
      intros x [<-|[]]. discriminate.
  - apply (proj1 (proj2 (warranty_lookup neon
                           (with_param "serialNumber" "QL-9999") "QL-9999"
                           eq_refl))).
    + apply neon_answers. discriminate.
    + intros r [<-|[<-|[]]]; discriminate.
  - apply (proj1 (warranty_lookup unreachable
                    (with_param "serialNumber" "QL-2002") "QL-2002" eq_refl)).
    apply unreachable_raises.
Defined.

(** The first part is quoted with its five fields and without its
    supplier; an unknown part gives 404; an unreachable database gives
    500. *)
Lemma quote_lookup_witness :
  respond Quote (with_param "partId" "P-100") neon =
  reply 200 (JObject
    [("part_id", JString "P-100");
     ("part_name", JString "Antenna");
     ("base_price", JString "49.99");
     ("stock_quantity", JNumber twelve);
     ("compatibility_notes", JNull)])
  /\ respond Quote (with_param "partId" "P-999") neon =
     reply 404 (error_body "Part not found in inventory.")
  /\ respond Quote (with_param "partId" "P-100") unreachable =
     reply 500
       (error_body "Internal server error while fetching repair quote.").
Proof.
  split; [|split].
  - apply (proj2 (proj2 (quote_lookup neon (with_param "partId" "P-100")
                           "P-100" eq_refl))
             (neon_answers quote_query [JString "P-100"] ltac:(discriminate))
             [("part_id", JString "P-100");
              ("part_name", JString "Antenna");
              ("base_price", JString "49.99");
              ("stock_quantity", JNumber twelve);
              ("compatibility_notes", JNull);
              ("supplier", JString "Acme")]).
    exists [], [ [("part_id", JString "P-200");
                  ("part_name", JString "Power Supply");
                  ("base_price", JString "19.50");
                  ("stock_quantity", JNumber (S754_zero false));
                  ("compatibility_notes", JString "Hub only");
                  ("supplier", JString "Acme")] ].
    split; [reflexivity|]. split; [reflexivity|]. intros x [].
  - apply (proj1 (proj2 (quote_lookup neon (with_param "partId" "P-999")
                           "P-999" eq_refl))).
    + apply neon_answers. discriminate.
    + intros r [<-|[<-|[]]]; discriminate.
  - apply (proj1 (quote_lookup unreachable (with_param "partId" "P-100")
                    "P-100" eq_refl)).
    apply unreachable_raises.
Defined.

(** The second customer is verified by id and email together; the id of one
    customer with the email of the other gives 401; an unreachable database
    gives 500. *)
Lemma verify_user_match_witness :
  respond VerifyUser
    (with_body [("externalAccountId", JString "CUST-002");
                ("email", JString "bob@example.com")]) neon =
  reply 200 (JObject
    [("verified", JBool true);
     ("customer", JObject
        [("customer_external_id", JString "CUST-002");
         ("full_name", JString "Bob Noyce");
         ("email", JString "bob@example.com");
         ("account_status", JString "suspended")])])
  /\ respond VerifyUser
       (with_body [("externalAccountId", JString "CUST-001");
                   ("email", JString "bob@example.com")]) neon =
     reply 401 (JObject
       [("verified", JBool false);
        ("message",
         JString "Identity verification failed. No match found in external system.")])
  /\ respond VerifyUser
       (with_body [("externalAccountId", JString "CUST-002");
                   ("email", JString "bob@example.com")]) unreachable =
     reply 500
       (error_body "Internal server error during user verification.").
Proof.
  split; [|split].
  - apply (proj2 (proj2 (verify_user_match neon
                           (with_body
                              [("externalAccountId", JString "CUST-002");
                               ("email", JString "bob@example.com")])
                           (JString "CUST-002") (JString "bob@example.com")
                           eq_refl eq_refl eq_refl eq_refl))
             (neon_answers verify_query
                [JString "CUST-002"; JString "bob@example.com"]
                ltac:(discriminate))
             [("customer_external_id", JString "CUST-002");
              ("full_name", JString "Bob Noyce");
              ("email", JString "bob@example.com");
              ("account_status", JString "suspended");
              ("phone", JNull)]).
    exists [ [("customer_external_id", JString "CUST-001");
              ("full_name", JString "Ada Byron");
              ("email", JString "ada@example.com");
              ("account_status", JString "active");
              ("phone", JString "555-0100")] ], [].
    split; [reflexivity|]. split; [split; reflexivity|].
    intros x [<-|[]] [H _]. discriminate H.
  - apply (proj1 (proj2 (verify_user_match neon
                           (with_body
                              [("externalAccountId", JString "CUST-001");
                               ("email", JString "bob@example.com")])
                           (JString "CUST-001") (JString "bob@example.com")
                           eq_refl eq_refl eq_refl eq_refl))
             (neon_answers verify_query
                [JString "CUST-001"; JString "bob@example.com"]
                ltac:(discriminate))).
    intros r [<-|[<-|[]]] [H1 H2]; discriminate.
  - apply (proj1 (verify_user_match unreachable
                    (with_body
                       [("externalAccountId", JString "CUST-002");
                        ("email", JString "bob@example.com")])
                    (JString "CUST-002") (JString "bob@example.com")
                    eq_refl eq_refl eq_refl eq_refl)).
    apply unreachable_raises.
Defined.

(** A body without [externalAccountId] is answered 400 on the reachable and
    on the unreachable database alike, and neither server changes. *)
Lemma verify_user_missing_fields_witness :
  serve VerifyUser (with_body [("email", JString "ada@example.com")])
        (boot neon) =
  (reply 400
     (error_body "Missing required fields: externalAccountId or email."),
   boot neon)
  /\ serve VerifyUser (with_body [("email", JString "ada@example.com")])
           (boot unreachable) =
     (reply 400
        (error_body "Missing required fields: externalAccountId or email."),
      boot unreachable).
Proof.
  split;
    apply (verify_user_missing_fields
             (with_body [("email", JString "ada@example.com")]) eq_refl
             (or_introl falsy_undefined)).
Defined.

(** A body whose [email] is the empty string is answered 400 and sends no
    statement. *)
Lemma verify_user_falsy_field_witness :
  let req := with_body [("externalAccountId", JString "CUST-001");
                        ("email", JString EmptyString)] in
  serve VerifyUser req (boot neon) =
  (reply 400
     (error_body "Missing required fields: externalAccountId or email."),
   boot neon)
  /\ server_issued (snd (serve VerifyUser req (boot neon))) = []
  /\ statusCode (fst (serve VerifyUser req (boot neon))) <> 401
  /\ statusCode (fst (serve VerifyUser req (boot neon))) <> 200.
Proof.
  exact (verify_user_falsy_field
           [("externalAccountId", JString "CUST-001");
            ("email", JString EmptyString)]
           "email" (JString EmptyString)
           (or_intror eq_refl) eq_refl falsy_empty [] (boot neon)).
Defined.

(** A key made of SQL metacharacters is bound as it stands and finds
    nothing, in either lookup. *)
Lemma lookup_key_is_literal_witness :
  (statements Warranty (with_param "serialNumber" injection) neon =
   [(warranty_query, [JString "' OR '1'='1"])]
   /\ respond Warranty (with_param "serialNumber" injection) neon =
      reply 404 (error_body "Warranty not found for this serial number."))
  /\ (statements Quote (with_param "partId" injection) neon =
      [(quote_query, [JString "' OR '1'='1"])]
      /\ respond Quote (with_param "partId" injection) neon =
         reply 404 (error_body "Part not found in inventory.")).
Proof.
  destruct (lookup_key_is_literal neon injection) as [Hwarranty Hquote].
  split.
  - destruct (Hwarranty (with_param "serialNumber" injection) eq_refl)
      as (Hsent & H404 & _).
    split; [exact Hsent|].
    apply H404.
    + apply neon_answers. discriminate.
    + intros r [<-|[<-|[]]]; discriminate.
  - destruct (Hquote (with_param "partId" injection) eq_refl)
      as (Hsent & H404 & _).
    split; [exact Hsent|].
    apply H404.
    + apply neon_answers. discriminate.
    + intros r [<-|[<-|[]]]; discriminate.
Defined.

(** The health check answers with the database clock when the database is
    reachable, and with its own message when it is not. *)
Lemma health_check_witness :
  respond Health bare neon =
  reply 200 (JObject
    [("status", JString "QuantumLink API is connected to Neon Cloud!");
     ("db_time", JDate 1793577600000)])
  /\ respond Health bare unreachable =
     reply 500 (error_body "Failed to connect to Neon.").
Proof.
  split.
  - apply (proj2 (health_check neon bare)).
    apply neon_answers. discriminate.
  - apply (proj1 (health_check unreachable bare)).
    apply unreachable_raises.
Defined.

(** C6, as stated, fails: on an unreachable database the statement raises,
    and the body of the 500 response is not [{error: "Failed to connect"}]. *)
Lemma health_failure_body_differs :
  ~ (raises unreachable health_query [] ->
     respond Health bare unreachable =
     reply 500 (error_body "Failed to connect")).
Proof.
  intros H. specialize (H (unreachable_raises health_query [])).
  vm_compute in H. discriminate H.
Qed.

(** C7, as stated, fails: the routes are not five. *)
Lemma routes_are_not_five : length routes <> 5.
Proof. cbn. discriminate. Qed.

(** A warranty request, in any letter case, with an escaped hyphen and a
    trailing slash, goes to the warranty handler with the decoded serial
    number and matches no other route; a serial number that is a malformed
    escape is answered 400 by the router. *)
Lemma router_dispatch_witness :
  (dispatch GET "/API/Warranty/QL%2D1001/" =
   Handle Warranty [("serialNumber", "QL-1001")]
   /\ forall r' ps',
        In r' routes ->
        route_match r' GET "/API/Warranty/QL%2D1001/" = Some ps' ->
        r' = {| route_method := GET;
                route_path := "/api/warranty/:serialNumber";
                route_endpoint := Warranty |})
  /\ dispatch GET "/api/warranty/%zz" = BadRequest.
Proof.
  destruct router_dispatch as (_ & _ & Hmatch & Hbad).
  split.
  - exact (Hmatch
             {| route_method := GET;
                route_path := "/api/warranty/:serialNumber";
                route_endpoint := Warranty |}
             GET "/API/Warranty/QL%2D1001/" [("serialNumber", "QL-1001")]
             (or_intror (or_introl eq_refl)) eq_refl).
  - exact (Hbad
             {| route_method := GET;
                route_path := "/api/warranty/:serialNumber";
                route_endpoint := Warranty |}
             GET "/api/warranty/%zz"
             (or_intror (or_introl eq_refl)) eq_refl).
Defined.

(** Asking twice for the same quote gives the same response; asking twice
    for the health of the reachable database gives two readings of its
    clock, a second apart. *)
Lemma get_is_repeatable_witness :
  fst (serve Quote (with_param "partId" "P-200")
         (snd (serve Quote (with_param "partId" "P-200") (boot neon)))) =
  fst (serve Quote (with_param "partId" "P-200") (boot neon))
  /\ fst (serve Health bare (boot neon)) =
     reply 200 (JObject
       [("status", JString "QuantumLink API is connected to Neon Cloud!");
        ("db_time", JDate 1793577600000)])
  /\ fst (serve Health bare (snd (serve Health bare (boot neon)))) =
     reply 200 (JObject
       [("status", JString "QuantumLink API is connected to Neon Cloud!");
        ("db_time", JDate 1793577601000)])
  /\ fst (serve Health bare (snd (serve Health bare (boot unreachable)))) =
     fst (serve Health bare (boot unreachable)).
Proof.
  split; [|split; [|split]].
  - exact (proj1 (proj2 (proj2 (proj2 (proj2
             (get_is_repeatable (with_param "partId" "P-200") (boot neon))))))).
  - destruct (get_is_repeatable bare (boot neon))
      as (_ & _ & _ & _ & _ & _ & Hhealthy).
    exact (proj1 (Hhealthy (neon_answers health_query [] ltac:(discriminate)))).
  - destruct (get_is_repeatable bare (boot neon))
      as (_ & _ & _ & _ & _ & _ & Hhealthy).
    exact (proj1 (proj2 (Hhealthy (neon_answers health_query [] ltac:(discriminate))))).
  - destruct (get_is_repeatable bare (boot unreachable))
      as (_ & _ & _ & _ & _ & Hdown & _).
    exact (Hdown (unreachable_raises _ _)).
Defined.

(** C8, as stated, fails: a health check served twice in a row on the same
    data answers with two different bodies. *)
Lemma health_check_is_not_repeatable :
  same_data (server_pool (snd (serve Health bare (boot neon)))) neon
  /\ fst (serve Health bare (snd (serve Health bare (boot neon)))) <>
     fst (serve Health bare (boot neon)).
Proof.
  split; [repeat split|]. vm_compute. discriminate.
Qed.

(** C2, at a request without a parsed body: the destructuring throws, the
    response is the 500 of the catch block and not the 400 of the
    validation, and the console gets a line about a database error. *)
Lemma verify_user_no_body_is_500 :
  serve VerifyUser {| params := []; body := JUndefined |} (boot neon) =
  (reply 500 (error_body "Internal server error during user verification."),
   {| server_pool := neon;
      server_issued := [];
      server_console :=
        [("Database error during verification:",
          TypeError "Cannot destructure")] |})
  /\ fst (serve VerifyUser {| params := []; body := JUndefined |} (boot neon))
     <> reply 400
          (error_body "Missing required fields: externalAccountId or email.").
Proof.
  split; [reflexivity|]. vm_compute. discriminate.
Qed.

(** ** Further properties of the handlers *)

(** Every request is answered: whatever the request and the pool, the
    handler sends a JSON body, and the status code is one of the codes of
    its endpoint. *)
Theorem every_request_is_answered (e : Endpoint) (req : Req) (s : Server) :
  In (statusCode (fst (serve e req s))) (statuses e)
  /\ exists payload, sent (fst (serve e req s)) = Some payload.
Proof.
  destruct e.
  - rewrite serve_health.
    destruct (Pg.query _ _ _) as [?|[[|? ?]]]; cbn; eauto 10.
  - rewrite serve_warranty.
    destruct (Pg.query _ _ _) as [?|[[|? ?]]]; cbn; eauto 10.
  - rewrite serve_verify_user.
    destruct (nullish _); [cbn; eauto 10|].
    destruct (_ || _); [cbn; eauto 10|].
    destruct (Pg.query _ _ _) as [?|[[|? ?]]]; cbn; eauto 10.
  - rewrite serve_quote.
    destruct (Pg.query _ _ _) as [?|[[|? ?]]]; cbn; eauto 10.
Qed.

Lemma serve_issued (req : Req) (s : Server) :
  server_issued (snd (serve Health req s)) =
  server_issued s ++ [(health_query, [])]
  /\ server_issued (snd (serve Warranty req s)) =
     server_issued s ++ [(warranty_query, [param req "serialNumber"])]
  /\ server_issued (snd (serve Quote req s)) =
     server_issued s ++ [(quote_query, [param req "partId"])]
  /\ server_issued (snd (serve VerifyUser req s)) =
     server_issued s ++
     (if nullish (body req)
         || negb (truthy (get (body req) "externalAccountId"))
         || negb (truthy (get (body req) "email"))
      then []
      else [(verify_query,
             [get (body req) "externalAccountId"; get (body req) "email"])]).
Proof.
  repeat split.
  - rewrite serve_health.
    destruct (Pg.query _ _ _) as [?|[[|? ?]]]; reflexivity.
  - rewrite serve_warranty.
    destruct (Pg.query _ _ _) as [?|[[|? ?]]]; reflexivity.
  - rewrite serve_quote.
    destruct (Pg.query _ _ _) as [?|[[|? ?]]]; reflexivity.
  - rewrite serve_verify_user.
    destruct (nullish _); cbn [orb]; [cbn; rewrite app_nil_r; reflexivity|].
    destruct (_ || _); [cbn; rewrite app_nil_r; reflexivity|].
    destruct (Pg.query _ _ _) as [?|[[|? ?]]]; reflexivity.
Qed.


(** A request sends at most one statement, appended to those sent before:
    the health check its fixed text without values; a lookup its fixed text
    with the route parameter as the one value; the verification nothing
    when the body is [undefined] or [null] or a field is falsy, and
    otherwise its fixed text with the two fields, id first, as values. *)
Theorem one_statement_per_request (req : Req) (s : Server) :
  server_issued (snd (serve Health req s)) =
  server_issued s ++ [(health_query, [])]
  /\ server_issued (snd (serve Warranty req s)) =
     server_issued s ++ [(warranty_query, [param req "serialNumber"])]
  /\ server_issued (snd (serve Quote req s)) =
     server_issued s ++ [(quote_query, [param req "partId"])]
  /\ server_issued (snd (serve VerifyUser req s)) =
     server_issued s ++
     (if nullish (body req)
         || negb (truthy (get (body req) "externalAccountId"))
         || negb (truthy (get (body req) "email"))
      then []
      else [(verify_query,
             [get (body req) "externalAccountId"; get (body req) "email"])]).
Proof. exact (serve_issued req s). Qed.

(** A 500 response is always the fixed message of its endpoint, whatever
    was thrown, and comes with exactly one new console line under the
    endpoint's label; any other response leaves the console as it was. *)
Theorem failures_are_logged_not_sent (e : Endpoint) (req : Req) (s : Server) :
  (statusCode (fst (serve e req s)) = 500 ->
   fst (serve e req s) = reply 500 (error_body (failure_message e))
   /\ exists err,
        server_console (snd (serve e req s)) =
        server_console s ++ [(log_label e, err)])
  /\ (statusCode (fst (serve e req s)) <> 500 ->
      server_console (snd (serve e req s)) = server_console s).
Proof.
  destruct e.
  - rewrite serve_health.
    destruct (Pg.query _ _ _) as [?|[[|? ?]]]; cbn;
      (split; [intros H; try discriminate H; eauto
              |intros H; try (elim H; reflexivity); apply app_nil_r]).
  - rewrite serve_warranty.
    destruct (Pg.query _ _ _) as [?|[[|? ?]]]; cbn;
      (split; [intros H; try discriminate H; eauto
              |intros H; try (elim H; reflexivity); apply app_nil_r]).
  - rewrite serve_verify_user.
    destruct (nullish _);
      [cbn; split; [eauto | intros H; elim H; reflexivity]|].
    destruct (_ || _);
      [cbn; split; [intros H; discriminate H | reflexivity]|].
    destruct (Pg.query _ _ _) as [?|[[|? ?]]]; cbn;
      (split; [intros H; try discriminate H; eauto
              |intros H; try (elim H; reflexivity); apply app_nil_r]).
  - rewrite serve_quote.
    destruct (Pg.query _ _ _) as [?|[[|? ?]]]; cbn;
      (split; [intros H; try discriminate H; eauto
              |intros H; try (elim H; reflexivity); apply app_nil_r]).
Qed.

Lemma filter_nil_inv {A : Type} (f : A -> bool) (l : list A) :
  filter f l = [] -> forall x, In x l -> f x = false.
Proof.
  intros H x Hx. destruct (f x) eqn:E; [|reflexivity].
  assert (Hin : In x (filter f l)) by (apply filter_In; auto).
  rewrite H in Hin. destruct Hin.
Qed.

(** When the statement a request sends raises, the error it raised is the
    one written to the console, under the endpoint's label, and the
    response is the endpoint's fixed 500 message, which does not depend on
    the error. *)
Theorem raised_error_is_logged
  (e : Endpoint) (req : Req) (s : Server)
  (text : string) (values : list JsValue) (err : JsError) :
  In (text, values) (statements e req (server_pool s)) ->
  Pg.query (server_pool s) text values = inl err ->
  fst (serve e req s) = reply 500 (error_body (failure_message e))
  /\ server_console (snd (serve e req s)) =
     server_console s ++ [(log_label e, err)].
Proof.
  unfold statements.
  destruct (serve_issued req (boot (server_pool s))) as (B1 & B2 & B3 & B4).
  destruct e.
  - rewrite B1. intros [H|[]]. injection H as <- <-. intros Hq.
    rewrite serve_health, Hq. split; reflexivity.
  - rewrite B2. intros [H|[]]. injection H as <- <-. intros Hq.
    rewrite serve_warranty. cbv zeta. rewrite Hq. split; reflexivity.
  - rewrite B4. cbn [boot server_pool].
    rewrite serve_verify_user. cbv zeta.
    destruct (nullish (body req)); cbn [orb]; [intros []|].
    destruct (_ || _); [intros []|].
    intros [H|[]]. injection H as <- <-. intros Hq.
    rewrite Hq. split; reflexivity.
  - rewrite B3. intros [H|[]]. injection H as <- <-. intros Hq.
    rewrite serve_quote. cbv zeta. rewrite Hq. split; reflexivity.
Qed.

Lemma raises_fault (p : Pool) (text : string) (values : list JsValue)
  (rs : list Row) :
  select p text values = Some rs ->
  (raises p text values <-> fault p text values <> None).
Proof.
  intros Hsel. unfold raises, Pg.query. rewrite Hsel.
  destruct (fault p text values) as [e|].
  - split; [discriminate | eauto].
  - split; [intros [e He]; discriminate He | intros H; elim H; reflexivity].
Qed.

(** What [serve] gives for the verification once validation has passed. *)
Lemma respond_verify_valid (p : Pool) (req : Req) :
  let a := get (body req) "externalAccountId" in
  let e := get (body req) "email" in
  truthy a = true ->
  truthy e = true ->
  respond VerifyUser req p =
  match fault p verify_query [a; e] with
  | Some _ =>
      reply 500 (error_body "Internal server error during user verification.")
  | None =>
      match filter (fun r =>
                      sql_eq (cell "customer_external_id" r)
                             (Some (param_text p a))
                      && sql_eq (cell "email" r) (Some (param_text p e)))
                   (external_customers p) with
      | [] =>
          reply 401 (JObject
            [("verified", JBool false);
             ("message",
              JString "Identity verification failed. No match found in external system.")])
      | r :: _ =>
          reply 200 (JObject
            [("verified", JBool true);
             ("customer", JObject (project customer_columns r))])
      end
  end.
Proof.
  intros a e Ha He. unfold respond.
  rewrite serve_verify_user. fold a e.
  rewrite (truthy_get_body _ _ He), Ha, He.
  cbn [negb orb boot server_pool].
  rewrite query_verify, (truthy_bound p _ Ha), (truthy_bound p _ He).
  destruct (fault p verify_query [a; e]); [reflexivity|].
  cbn [rows].
  destruct (filter _ (external_customers p)); reflexivity.
Qed.

Ltac settle :=
  repeat split; intros; try discriminate;
  try solve [intuition (try discriminate; try congruence; eauto)].

(** The status code of a verification tells what happened, and nothing
    else produces it: 400 exactly when the body is an object (not
    [undefined] or [null]) and a field is missing or falsy; 500 exactly when
    the body is [undefined] or [null], or validation passes and the
    statement raises; 401 exactly when validation passes, the statement does
    not raise and no customer row has both the id and the email; 200 exactly
    when validation passes, the statement does not raise and some row has
    both. *)
Theorem verify_user_status (p : Pool) (req : Req) :
  let externalAccountId := get (body req) "externalAccountId" in
  let email := get (body req) "email" in
  let passes := truthy externalAccountId = true /\ truthy email = true in
  let values := [externalAccountId; email] in
  let same_row (r : Row) :=
    cell "customer_external_id" r = JString (param_text p externalAccountId)
    /\ cell "email" r = JString (param_text p email) in
  let code := statusCode (respond VerifyUser req p) in
  (code = 400 <->
   nullish (body req) = false /\ (falsy externalAccountId \/ falsy email))
  /\ (code = 500 <->
      nullish (body req) = true \/ (passes /\ raises p verify_query values))
  /\ (code = 401 <->
      passes /\ ~ raises p verify_query values
      /\ forall r, In r (external_customers p) -> ~ same_row r)
  /\ (code = 200 <->
      passes /\ ~ raises p verify_query values
      /\ exists r, In r (external_customers p) /\ same_row r).
Proof.
  cbv zeta.
  remember (get (body req) "externalAccountId") as a eqn:Ea.
  remember (get (body req) "email") as e eqn:Ee.
  assert (Hraises : raises p verify_query [a; e] <->
                    fault p verify_query [a; e] <> None).
  { eapply raises_fault. reflexivity. }
  assert (Hfa : falsy a <-> truthy a = false) by (symmetry; apply truthy_falsy).
  assert (Hfe : falsy e <-> truthy e = false) by (symmetry; apply truthy_falsy).
  rewrite Hraises, Hfa, Hfe. clear Hraises Hfa Hfe.
  destruct (truthy a) eqn:Ta; [destruct (truthy e) eqn:Te|].
  - (* validation passes *)
    assert (Hn : nullish (body req) = false).
    { apply (truthy_get_body _ "email"). rewrite <- Ee. exact Te. }
    subst a e. rewrite (respond_verify_valid p req Ta Te), Hn.
    destruct (fault p verify_query _) as [err|] eqn:F.
    + cbn [reply statusCode]. settle.
    + destruct (filter _ (external_customers p)) as [|r rest] eqn:E;
        cbn [reply statusCode].
      * pose proof (filter_nil_inv _ _ E) as Hnone.
        assert (Hno : forall r, In r (external_customers p) ->
           ~ (cell "customer_external_id" r =
              JString (param_text p (get (body req) "externalAccountId"))
              /\ cell "email" r =
                 JString (param_text p (get (body req) "email")))).
        { intros r Hr Hsame. apply both_eq_text in Hsame.
          rewrite (Hnone r Hr) in Hsame. discriminate Hsame. }
        settle.
        destruct H as (_ & _ & r & Hr & Hsame). elim (Hno r Hr Hsame).
      * apply filter_head_in in E. destruct E as [Hin Hsame].
        apply both_eq_text in Hsame.
        settle.
  - (* email falsy *)
    assert (Hn : nullish (body req) = false).
    { apply (truthy_get_body _ "externalAccountId"). rewrite <- Ea. exact Ta. }
    unfold respond. rewrite serve_verify_user, <- Ea, <- Ee, Hn, Ta, Te.
    cbn. settle.
  - (* externalAccountId falsy *)
    unfold respond. rewrite serve_verify_user, <- Ea, <- Ee, Ta.
    cbn [negb orb].
    destruct (nullish (body req)) eqn:Hn; cbn; settle.
Qed.

(** A verification answers [verified: true] only for a customer that is in
    the table: a 200 response carries the customer_external_id, full_name,
    email and account_status, and no other column, of a row whose id and
    email are the submitted ones. *)
Theorem verified_customer_is_stored (p : Pool) (req : Req) (payload : JsValue) :
  respond VerifyUser req p = reply 200 payload ->
  exists r,
    In r (external_customers p)
    /\ cell "customer_external_id" r =
       JString (param_text p (get (body req) "externalAccountId"))
    /\ cell "email" r = JString (param_text p (get (body req) "email"))
    /\ payload =
       JObject
         [("verified", JBool true);
          ("customer", JObject
             [("customer_external_id", cell "customer_external_id" r);
              ("full_name", cell "full_name" r);
              ("email", cell "email" r);
              ("account_status", cell "account_status" r)])].
Proof.
  destruct (truthy (get (body req) "externalAccountId")) eqn:Ta;
    [destruct (truthy (get (body req) "email")) eqn:Te|].
  - rewrite (respond_verify_valid p req Ta Te).
    destruct (fault p verify_query _);
      [intros H; apply reply_200_inv in H; destruct H; discriminate|].
    destruct (filter _ (external_customers p)) as [|r rest] eqn:E;
      [intros H; apply reply_200_inv in H; destruct H; discriminate|].
    intros H. apply reply_200_inv in H. destruct H as [_ <-].
    apply filter_head_in in E. destruct E as [Hin Hsame].
    apply both_eq_text in Hsame. destruct Hsame.
    exists r. repeat split; assumption.
  - unfold respond. rewrite serve_verify_user, Ta, Te.
    destruct (nullish (body req)); cbn;
      intros H; apply reply_200_inv in H; destruct H; discriminate.
  - unfold respond. rewrite serve_verify_user, Ta.
    destruct (nullish (body req)); cbn;
      intros H; apply reply_200_inv in H; destruct H; discriminate.
Qed.

(** A body that is [undefined] or [null] makes the destructuring throw:
    the response is the 500 of the verification, no statement is sent, and
    the console gets the one line of the catch block. *)
Theorem verify_user_without_body (req : Req) (s : Server) :
  nullish (body req) = true ->
  fst (serve VerifyUser req s) =
  reply 500 (error_body "Internal server error during user verification.")
  /\ server_issued (snd (serve VerifyUser req s)) = server_issued s
  /\ server_pool (snd (serve VerifyUser req s)) = server_pool s
  /\ exists msg,
       server_console (snd (serve VerifyUser req s)) =
       server_console s
       ++ [("Database error during verification:", TypeError msg)].
Proof.
  intros Hn. rewrite serve_verify_user, Hn. cbn. eauto 6.
Qed.

(** Each handler reads only its own inputs: the health check nothing of
    the request, a lookup only its route parameter, the verification only
    the two fields of the body (and whether there is a body).  Requests
    that agree on these are served alike. *)
Theorem handlers_read_their_inputs_only (req req' : Req) (s : Server) :
  serve Health req s = serve Health req' s
  /\ (param req "serialNumber" = param req' "serialNumber" ->
      serve Warranty req s = serve Warranty req' s)
  /\ (param req "partId" = param req' "partId" ->
      serve Quote req s = serve Quote req' s)
  /\ (nullish (body req) = nullish (body req') ->
      get (body req) "externalAccountId" = get (body req') "externalAccountId" ->
      get (body req) "email" = get (body req') "email" ->
      serve VerifyUser req s = serve VerifyUser req' s).
Proof.
  split; [|split; [|split]].
  - rewrite !serve_health. reflexivity.
  - intros H. rewrite !serve_warranty. cbv zeta. rewrite H. reflexivity.
  - intros H. rewrite !serve_quote. cbv zeta. rewrite H. reflexivity.
  - intros Hn Ha He. rewrite !serve_verify_user. cbv zeta.
    rewrite Hn, Ha, He. reflexivity.
Qed.

(** The status code of a warranty lookup tells what happened, and nothing
    else produces it: 500 exactly when the statement raises, 404 exactly
    when it does not raise and no row stores the serial number, 200 exactly
    when it does not raise and some row stores it. *)
Theorem warranty_status (p : Pool) (req : Req) (serialNumber : string) :
  param req "serialNumber" = JString serialNumber ->
  let code := statusCode (respond Warranty req p) in
  let stored :=
    exists r, In r (external_warranties p)
              /\ cell "serial_number" r = JString serialNumber in
  (code = 500 <-> raises p warranty_query [JString serialNumber])
  /\ (code = 404 <-> ~ raises p warranty_query [JString serialNumber]
                     /\ ~ stored)
  /\ (code = 200 <-> ~ raises p warranty_query [JString serialNumber]
                     /\ stored).
Proof.
  intros Hparam. cbv zeta.
  rewrite (raises_fault p warranty_query [JString serialNumber] _ eq_refl).
  unfold respond. rewrite serve_warranty, Hparam. cbn [boot server_pool].
  rewrite query_warranty. cbn [bound param_text].
  destruct (fault p warranty_query [JString serialNumber]) as [err|] eqn:F.
  - cbn. settle.
  - cbn [rows].
    destruct (filter _ (external_warranties p)) as [|r rest] eqn:E; cbn.
    + pose proof (filter_nil_inv _ _ E) as Hnone.
      assert (Hno : ~ exists r, In r (external_warranties p)
                                /\ cell "serial_number" r = JString serialNumber).
      { intros (r & Hr & Hkey). apply sql_eq_text in Hkey.
        rewrite (Hnone r Hr) in Hkey. discriminate Hkey. }
      settle.
    + apply filter_head_in in E. destruct E as [Hin Hkey].
      apply sql_eq_text in Hkey.
      assert (Hyes : exists r, In r (external_warranties p)
                               /\ cell "serial_number" r = JString serialNumber)
        by eauto.
      settle.
Qed.

(** The status code of a quote tells what happened, and nothing else
    produces it: 500 exactly when the statement raises, 404 exactly when it
    does not raise and no row stores the part id, 200 exactly when it does
    not raise and some row stores it. *)
Theorem quote_status (p : Pool) (req : Req) (partId : string) :
  param req "partId" = JString partId ->
  let code := statusCode (respond Quote req p) in
  let stored :=
    exists r, In r (parts_pricing p) /\ cell "part_id" r = JString partId in
  (code = 500 <-> raises p quote_query [JString partId])
  /\ (code = 404 <-> ~ raises p quote_query [JString partId] /\ ~ stored)
  /\ (code = 200 <-> ~ raises p quote_query [JString partId] /\ stored).
Proof.
  intros Hparam. cbv zeta.
  rewrite (raises_fault p quote_query [JString partId] _ eq_refl).
  unfold respond. rewrite serve_quote, Hparam. cbn [boot server_pool].
  rewrite query_quote. cbn [bound param_text].
  destruct (fault p quote_query [JString partId]) as [err|] eqn:F.
  - cbn. settle.
  - cbn [rows].
    destruct (filter _ (parts_pricing p)) as [|r rest] eqn:E;
      cbn [map reply statusCode fst].
    + pose proof (filter_nil_inv _ _ E) as Hnone.
      assert (Hno : ~ exists r, In r (parts_pricing p)
                                /\ cell "part_id" r = JString partId).
      { intros (r & Hr & Hkey). apply sql_eq_text in Hkey.
        rewrite (Hnone r Hr) in Hkey. discriminate Hkey. }
      settle.
    + apply filter_head_in in E. destruct E as [Hin Hkey].
      apply sql_eq_text in Hkey.
      assert (Hyes : exists r, In r (parts_pricing p)
                               /\ cell "part_id" r = JString partId)
        by eauto.
      settle.
Qed.

(** A lookup whose route parameter is missing binds NULL, which equals no
    stored key: the response is never 200, and is 404 whenever the
    statement does not raise. *)
Theorem lookup_without_parameter (p : Pool) (req : Req) :
  (assoc "serialNumber" (params req) = None ->
   statusCode (respond Warranty req p) <> 200
   /\ (~ raises p warranty_query [JUndefined] ->
       respond Warranty req p =
       reply 404 (error_body "Warranty not found for this serial number.")))
  /\ (assoc "partId" (params req) = None ->
      statusCode (respond Quote req p) <> 200
      /\ (~ raises p quote_query [JUndefined] ->
          respond Quote req p =
          reply 404 (error_body "Part not found in inventory."))).
Proof.
  assert (Hnull : forall (l : list Row) (c : string),
             filter (fun r => sql_eq (cell c r) None) l = []).
  { intros l c. apply filter_none. intros r _. destruct (cell c r); reflexivity. }
  split; intros Hmissing; unfold respond, raises.
  - rewrite serve_warranty. unfold param. rewrite Hmissing.
    cbn [boot server_pool]. rewrite query_warranty. cbn [bound].
    rewrite Hnull.
    destruct (fault p warranty_query [JUndefined]); cbn.
    + split; [discriminate|]. intros H. elim H. eauto.
    + split; [discriminate|reflexivity].
  - rewrite serve_quote. unfold param. rewrite Hmissing.
    cbn [boot server_pool]. rewrite query_quote. cbn [bound].
    rewrite Hnull.
    destruct (fault p quote_query [JUndefined]); cbn.
    + split; [discriminate|]. intros H. elim H. eauto.
    + split; [discriminate|reflexivity].
Qed.

(** ** Further properties of the router *)

Lemma split_path_slashless (s : string) :
  slashless s = true -> split_path s = [s].
Proof.
  induction s as [|c s IH]; [reflexivity|].
  cbn [slashless split_path]. intros H. apply andb_true_iff in H.
  destruct H as [Hc Hs]. apply negb_true_iff in Hc.
  rewrite Hc, (IH Hs). reflexivity.
Qed.














Lemma plain_slashless (s : string) : plain s = true -> slashless s = true.
Proof.
  induction s as [|c s IH]; [reflexivity|].
  cbn [plain slashless]. unfold plain_char. intros Hp.
  rewrite !andb_true_iff in Hp. destruct Hp as [[[[[_ H] _] _] _] Hs].
  rewrite H, (IH Hs). reflexivity.
Qed.

Lemma decode_plain (s : string) :
  plain s = true -> decodeURIComponent s = Some s.
Proof.
  unfold decodeURIComponent.
  assert (H : plain s = true ->
              exists ts, tokens s = Some ts /\ assemble ts = Some s).
  { induction s as [|c s IH]; [intros _; exists []; split; reflexivity|].
    cbn [plain]. unfold plain_char. intros Hp.
    rewrite !andb_true_iff in Hp. destruct Hp as [[[[[_ _] Hc] _] _] Hs].
    apply negb_true_iff in Hc.
    destruct (IH Hs) as (ts & Hts & Hv).
    exists (Raw c :: ts). cbn [tokens assemble].
    rewrite Hc, Hts, Hv. split; reflexivity. }
  intros Hs. destruct (H Hs) as (ts & -> & Hv). exact Hv.
Qed.

(** Every plain key can be asked for: a non-empty key of visible ASCII
    characters other than the slash, the percent sign, the question mark
    and the hash, put after the lookup's prefix, is routed to that lookup
    with the key itself as its parameter. *)
Theorem lookup_path_round_trip (key : string) :
  key <> EmptyString ->
  plain key = true ->
  dispatch GET (String.append "/api/warranty/" key) =
  Handle Warranty [("serialNumber", key)]
  /\ dispatch GET (String.append "/api/quote/" key) =
     Handle Quote [("partId", key)].
Proof.
  intros Hne Hkey.
  unfold dispatch, routes, first_match, match_path.
  cbn [route_method route_path route_endpoint handles_method Method_eqb
       orb andb String.append split_path Ascii.eqb Bool.eqb].
  rewrite (split_path_slashless key (plain_slashless key Hkey)).
  pose proof (decode_plain key Hkey) as Hdecode.
  destruct key as [|c key]; [elim Hne; reflexivity|].
  cbv -[decodeURIComponent]. rewrite Hdecode. split; reflexivity.
Qed.
(** ** The further properties on the sample data *)

(** A quote asked of the unreachable database is answered with the fixed
    message and logged once; asked of the reachable one, nothing is
    logged. *)
Lemma failures_are_logged_not_sent_witness :
  (fst (serve Quote (with_param "partId" "P-100") (boot unreachable)) =
   reply 500
     (error_body "Internal server error while fetching repair quote.")
   /\ exists err,
        server_console
          (snd (serve Quote (with_param "partId" "P-100") (boot unreachable))) =
        [] ++ [("Database error fetching quote:", err)])
  /\ server_console
       (snd (serve Quote (with_param "partId" "P-100") (boot neon))) = [].
Proof.
  split.
  - exact (proj1 (failures_are_logged_not_sent Quote
                    (with_param "partId" "P-100") (boot unreachable))
             eq_refl).
  - apply (proj2 (failures_are_logged_not_sent Quote
                    (with_param "partId" "P-100") (boot neon))).
    vm_compute. discriminate.
Defined.

(** The connection error of the unreachable database reaches the console,
    not the client. *)
Lemma raised_error_is_logged_witness :
  fst (serve Warranty (with_param "serialNumber" "QL-1001")
         (boot unreachable)) =
  reply 500 (error_body "Internal server error while fetching warranty.")
  /\ server_console
       (snd (serve Warranty (with_param "serialNumber" "QL-1001")
               (boot unreachable))) =
     [] ++ [("Database error:", DatabaseError "connect ECONNREFUSED")].
Proof.
  exact (raised_error_is_logged Warranty
           (with_param "serialNumber" "QL-1001") (boot unreachable)
           warranty_query [JString "QL-1001"]
           (DatabaseError "connect ECONNREFUSED")
           (or_introl eq_refl) eq_refl).
Defined.

(** The second customer's id and email are answered 200, so some row has
    both. *)
Lemma verify_user_status_witness :
  exists r,
    In r (external_customers neon)
    /\ cell "customer_external_id" r = JString "CUST-002"
    /\ cell "email" r = JString "bob@example.com".
Proof.
  destruct (verify_user_status neon
              (with_body [("externalAccountId", JString "CUST-002");
                          ("email", JString "bob@example.com")]))
    as (_ & _ & _ & H200).
  exact (proj2 (proj2 (proj1 H200 eq_refl))).
Defined.

(** The customer of a successful verification is the stored second row. *)
Lemma verified_customer_is_stored_witness :
  exists r,
    In r (external_customers neon)
    /\ cell "customer_external_id" r = JString "CUST-002"
    /\ cell "email" r = JString "bob@example.com"
    /\ JObject
         [("verified", JBool true);
          ("customer", JObject
             [("customer_external_id", JString "CUST-002");
              ("full_name", JString "Bob Noyce");
              ("email", JString "bob@example.com");
              ("account_status", JString "suspended")])] =
       JObject
         [("verified", JBool true);
          ("customer", JObject
             [("customer_external_id", cell "customer_external_id" r);
              ("full_name", cell "full_name" r);
              ("email", cell "email" r);
              ("account_status", cell "account_status" r)])].
Proof.
  exact (verified_customer_is_stored neon
           (with_body [("externalAccountId", JString "CUST-002");
                       ("email", JString "bob@example.com")])
           _ eq_refl).
Defined.

(** A request without a body is answered 500 and sends nothing. *)
Lemma verify_user_without_body_witness :
  fst (serve VerifyUser {| params := []; body := JUndefined |} (boot neon)) =
  reply 500 (error_body "Internal server error during user verification.")
  /\ server_issued
       (snd (serve VerifyUser {| params := []; body := JUndefined |}
               (boot neon))) = [].
Proof.
  destruct (verify_user_without_body
              {| params := []; body := JUndefined |} (boot neon) eq_refl)
    as (Hres & Hsent & _).
  split; [exact Hres | exact Hsent].
Defined.

(** A field the handler does not read changes nothing. *)
Lemma handlers_read_their_inputs_only_witness :
  serve VerifyUser
    (with_body [("externalAccountId", JString "CUST-001");
                ("email", JString "ada@example.com");
                ("role", JString "admin")]) (boot neon) =
  serve VerifyUser
    (with_body [("email", JString "ada@example.com");
                ("externalAccountId", JString "CUST-001")]) (boot neon).
Proof.
  exact (proj2 (proj2 (proj2
           (handlers_read_their_inputs_only
              (with_body [("externalAccountId", JString "CUST-001");
                          ("email", JString "ada@example.com");
                          ("role", JString "admin")])
              (with_body [("email", JString "ada@example.com");
                          ("externalAccountId", JString "CUST-001")])
              (boot neon))))
           eq_refl eq_refl eq_refl).
Defined.

(** An unknown serial number on a reachable database is answered 404. *)
Lemma warranty_status_witness :
  statusCode (respond Warranty (with_param "serialNumber" "QL-9999") neon) =
  404.
Proof.
  destruct (warranty_status neon (with_param "serialNumber" "QL-9999")
              "QL-9999" eq_refl) as (_ & H404 & _).
  apply (proj2 H404). split.
  - apply neon_answers. discriminate.
  - intros (r & [<-|[<-|[]]] & Hkey); discriminate Hkey.
Defined.

(** A 200 for a part id means that some row stores it. *)
Lemma quote_status_witness :
  exists r, In r (parts_pricing neon) /\ cell "part_id" r = JString "P-200".
Proof.
  destruct (quote_status neon (with_param "partId" "P-200") "P-200" eq_refl)
    as (_ & _ & H200).
  exact (proj2 (proj1 H200 eq_refl)).
Defined.

(** A lookup without its parameter finds nothing. *)
Lemma lookup_without_parameter_witness :
  respond Warranty bare neon =
  reply 404 (error_body "Warranty not found for this serial number.")
  /\ respond Quote bare neon =
     reply 404 (error_body "Part not found in inventory.").
Proof.
  destruct (lookup_without_parameter neon bare) as [Hw Hq].
  split.
  - apply (proj2 (Hw eq_refl)). apply neon_answers. discriminate.
  - apply (proj2 (Hq eq_refl)). apply neon_answers. discriminate.
Defined.


(** A key of quotes and equals signs is routed like any other. *)
Lemma lookup_path_round_trip_witness :
  dispatch GET "/api/warranty/'OR'1'='1" =
  Handle Warranty [("serialNumber", "'OR'1'='1")]
  /\ dispatch GET "/api/quote/'OR'1'='1" =
     Handle Quote [("partId", "'OR'1'='1")].
Proof.
  exact (lookup_path_round_trip "'OR'1'='1" ltac:(discriminate) eq_refl).
Defined.
